(** * openapi-spec-converter: the version migration engine

    A shallow embedding of [cmd/openapi-spec-converter/main.go]: the
    per-fragment conversion rules between OpenAPI 3.0 and 3.1, the schema
    visitor, the Swagger 2.0 post-processing pass and the stepping loop of
    [convertDocument], followed by the properties proved about them.

    Go strings are byte sequences, so they are [string]s (lists of 8-bit
    [ascii]); [float64] is the kernel's binary64; slices are lists (a nil
    slice and an empty one are both [[]], the code only ever takes their
    length or ranges over them); pointers that may be nil are [option]s;
    Go maps are [gmap]s, and libopenapi's insertion-ordered maps are
    association lists. In-place mutation through a pointer is a function
    from the old value to the new one. *)

From Stdlib Require Import PrimFloat ZArith.
From stdpp Require Import gmap strings list.

#[local] Set Warnings "-register-all".

Local Open Scope string_scope.
Local Open Scope nat_scope.
Local Open Scope list_scope.
Local Open Scope stdpp_scope.

(** ** The libopenapi data model, as far as the converter touches it *)

Definition float64 : Type := PrimFloat.float.

(** [base.DynamicValue[A, B]]: the tag [N] says which of the two payload
    fields is live (0 for [A], 1 for [B]); both fields are always there. *)
Module DynamicValue.
Record t (TA TB : Type) : Type := mk { N : Z; A : TA; B : TB }.
Arguments mk {TA TB} N A B.
Arguments N {TA TB} _.
Arguments A {TA TB} _.
Arguments B {TA TB} _.

Definition IsA {TA TB} (d : t TA TB) : bool := (N d =? 0)%Z.
Definition IsB {TA TB} (d : t TA TB) : bool := (N d =? 1)%Z.
End DynamicValue.

(** The two fields of the low-level schema ([schema.GoLow()]) that the
    format rules write; only their [Value] is modelled. *)
Record LowSchema : Type := mkLow {
  ContentMediaType : string;
  ContentEncoding : string
}.

(** [base.Schema]. A [*base.SchemaProxy] is modelled by the schema that its
    [Schema()] method returns. [GoLow] is [None] for a schema that was
    built in memory rather than parsed. *)
Inductive Schema : Type := mkSchema {
  Type_ : list string;
  Nullable : option bool;
  Minimum : option float64;
  Maximum : option float64;
  ExclusiveMinimum : option (DynamicValue.t bool float64);
  ExclusiveMaximum : option (DynamicValue.t bool float64);
  Format : string;
  Properties : option (list (string * Schema));
  Items : option (DynamicValue.t (option Schema) bool);
  AllOf : list Schema;
  OneOf : list Schema;
  AnyOf : list Schema;
  GoLow : option LowSchema
}.

(** The zero value [base.Schema{}]. *)
Definition zeroSchema : Schema :=
  mkSchema [] None None None None None EmptyString None None [] [] [] None.

(** Field assignments [schema.F = v]. *)
Definition set_Type (v : list string) (s : Schema) : Schema :=
  mkSchema v (Nullable s) (Minimum s) (Maximum s) (ExclusiveMinimum s)
    (ExclusiveMaximum s) (Format s) (Properties s) (Items s) (AllOf s)
    (OneOf s) (AnyOf s) (GoLow s).

Definition set_Nullable (v : option bool) (s : Schema) : Schema :=
  mkSchema (Type_ s) v (Minimum s) (Maximum s) (ExclusiveMinimum s)
    (ExclusiveMaximum s) (Format s) (Properties s) (Items s) (AllOf s)
    (OneOf s) (AnyOf s) (GoLow s).

Definition set_MinimumPair
    (v : option float64 * option (DynamicValue.t bool float64))
    (s : Schema) : Schema :=
  mkSchema (Type_ s) (Nullable s) (fst v) (Maximum s) (snd v)
    (ExclusiveMaximum s) (Format s) (Properties s) (Items s) (AllOf s)
    (OneOf s) (AnyOf s) (GoLow s).

Definition set_MaximumPair
    (v : option float64 * option (DynamicValue.t bool float64))
    (s : Schema) : Schema :=
  mkSchema (Type_ s) (Nullable s) (Minimum s) (fst v) (ExclusiveMinimum s)
    (snd v) (Format s) (Properties s) (Items s) (AllOf s)
    (OneOf s) (AnyOf s) (GoLow s).

Definition set_Format (v : string) (s : Schema) : Schema :=
  mkSchema (Type_ s) (Nullable s) (Minimum s) (Maximum s) (ExclusiveMinimum s)
    (ExclusiveMaximum s) v (Properties s) (Items s) (AllOf s)
    (OneOf s) (AnyOf s) (GoLow s).

Definition set_OneOf (v : list Schema) (s : Schema) : Schema :=
  mkSchema (Type_ s) (Nullable s) (Minimum s) (Maximum s) (ExclusiveMinimum s)
    (ExclusiveMaximum s) (Format s) (Properties s) (Items s) (AllOf s)
    v (AnyOf s) (GoLow s).

Definition set_GoLow (v : option LowSchema) (s : Schema) : Schema :=
  mkSchema (Type_ s) (Nullable s) (Minimum s) (Maximum s) (ExclusiveMinimum s)
    (ExclusiveMaximum s) (Format s) (Properties s) (Items s) (AllOf s)
    (OneOf s) (AnyOf s) v.

(** The sub-schemas are replaced together, after the callback has run on
    each of them in place. *)
Definition set_children
    (props : option (list (string * Schema)))
    (items : option (DynamicValue.t (option Schema) bool))
    (allOf oneOf anyOf : list Schema) (s : Schema) : Schema :=
  mkSchema (Type_ s) (Nullable s) (Minimum s) (Maximum s) (ExclusiveMinimum s)
    (ExclusiveMaximum s) (Format s) props items allOf oneOf anyOf (GoLow s).

(** ** Nullability rules *)

(** [convert30NullablesTo31TypeArrays]. *)
Definition convert30NullablesTo31TypeArrays (schema : Schema) : Schema :=
  match Nullable schema with
  | Some b =>
      set_Nullable None
        (if b then set_Type (Type_ schema ++ ["null"]) schema else schema)
  | None => schema
  end.

(** The first loop of [convert31TypeArraysTo30]: the pair
    [(nullable, nonNullType)] after ranging over [schema.Type]. *)
Definition scanTypes (types : list string) : bool * string :=
  foldl (fun acc value =>
           if String.eqb value "null" then (true, snd acc) else (fst acc, value))
        (false, EmptyString) types.

(** The schema built for one branch: [base.Schema{Type: []string{value}}],
    with [Nullable] pointing at [nullable] when that is true. *)
Definition oneOfBranch (nullable : bool) (value : string) : Schema :=
  let newSchema := set_Type [value] zeroSchema in
  if nullable then set_Nullable (Some nullable) newSchema else newSchema.

(** [convert31TypeArraysTo30]. *)
Definition convert31TypeArraysTo30 (schema : Schema) : Schema :=
  let '(nullable, nonNullType) := scanTypes (Type_ schema) in
  if nullable && (length (Type_ schema) =? 2) then
    set_Nullable (Some nullable)
      (set_Type (take 1 (<[0 := nonNullType]> (Type_ schema))) schema)
  else if (2 <=? length (Type_ schema)) then
    set_Type []
      (set_OneOf
         (oneOfBranch nullable <$>
            filter (fun value => negb (String.eqb value "null")) (Type_ schema))
         schema)
  else schema.

(** ** Numeric bound rules *)

(** One bound with its exclusivity indicator: the two pointers that the
    inner closures of [convert30MinMaxTo31] and [convert31MinMaxTo30]
    receive. *)
Definition BoundPair : Type :=
  (option float64 * option (DynamicValue.t bool float64))%type.

(** The closure [convert30ExclusiveBoundTo31]. *)
Definition convert30ExclusiveBoundTo31 (p : BoundPair) : BoundPair :=
  let '(bound, exclusiveBound) := p in
  match exclusiveBound with
  | Some e =>
      if DynamicValue.IsA e then
        if DynamicValue.A e then
          (None,
           match bound with
           | Some b => Some (DynamicValue.mk 1%Z (DynamicValue.A e) b)
           | None => Some e
           end)
        else (bound, None)
      else p
  | None => p
  end.

(** The closure [convert31ExclusiveBoundTo30]. The new bound points into
    the indicator's [B] field, which keeps its value. *)
Definition convert31ExclusiveBoundTo30 (p : BoundPair) : BoundPair :=
  let '(bound, exclusiveBound) := p in
  match exclusiveBound with
  | Some e =>
      if DynamicValue.IsB e then
        (Some (DynamicValue.B e),
         Some (DynamicValue.mk 0%Z true (DynamicValue.B e)))
      else p
  | None => p
  end.

Definition minimumPair (s : Schema) : BoundPair := (Minimum s, ExclusiveMinimum s).
Definition maximumPair (s : Schema) : BoundPair := (Maximum s, ExclusiveMaximum s).

(** [convert30MinMaxTo31]. *)
Definition convert30MinMaxTo31 (schema : Schema) : Schema :=
  let schema := set_MinimumPair (convert30ExclusiveBoundTo31 (minimumPair schema)) schema in
  set_MaximumPair (convert30ExclusiveBoundTo31 (maximumPair schema)) schema.

(** [convert31MinMaxTo30]. *)
Definition convert31MinMaxTo30 (schema : Schema) : Schema :=
  let schema := set_MinimumPair (convert31ExclusiveBoundTo30 (minimumPair schema)) schema in
  set_MaximumPair (convert31ExclusiveBoundTo30 (maximumPair schema)) schema.

(** ** Binary string encoding rule *)

(** [low.NodeReference[string]{Value: "base64", ...}] assigned to one of
    the two low-level fields, when there is a low-level schema. *)
Definition setContentMediaType (v : string) (s : Schema) : Schema :=
  match GoLow s with
  | Some lowSchema => set_GoLow (Some (mkLow v (ContentEncoding lowSchema))) s
  | None => s
  end.

Definition setContentEncoding (v : string) (s : Schema) : Schema :=
  match GoLow s with
  | Some lowSchema => set_GoLow (Some (mkLow (ContentMediaType lowSchema) v)) s
  | None => s
  end.

Definition soleTypeIsString (s : Schema) : bool :=
  match Type_ s with
  | [t] => String.eqb t "string"
  | _ => false
  end.

(** [convert30FormatsTo31ContentFields]. *)
Definition convert30FormatsTo31ContentFields (schema : Schema) : Schema :=
  if soleTypeIsString schema && (0 <? String.length (Format schema)) then
    let schema :=
      if String.eqb (Format schema) "binary" || String.eqb (Format schema) "byte"
      then setContentMediaType "base64" schema
      else if String.eqb (Format schema) "base64"
      then setContentEncoding "base64" schema
      else schema in
    set_Format EmptyString schema
  else schema.

(** ** The schema visitor *)

(** The callback is a Go closure: it rewrites the schema it is handed and
    may update state it has captured, which is threaded through here. *)
Section Visitor.
Context {St : Type}.

Definition Callback : Type := Schema -> St -> Schema * St.

(** [for _, subSchema := range l { callback(subSchema.Schema()) }]. *)
Fixpoint forEachSchema (callback : Callback) (l : list Schema) (st : St)
    : list Schema * St :=
  match l with
  | [] => ([], st)
  | subSchema :: rest =>
      let '(subSchema', st) := callback subSchema st in
      let '(rest', st) := forEachSchema callback rest st in
      (subSchema' :: rest', st)
  end.

(** [for property := range schema.Properties.ValuesFromOldest()]: the
    values in insertion order, each under its own key. *)
Fixpoint forEachProperty (callback : Callback) (l : list (string * Schema))
    (st : St) : list (string * Schema) * St :=
  match l with
  | [] => ([], st)
  | (name, property) :: rest =>
      let '(property', st) := callback property st in
      let '(rest', st) := forEachProperty callback rest st in
      ((name, property') :: rest', st)
  end.

(** [updateSchemaAndReferencedSchema]. A nil [schema] is [None]. An
    [Items] value tagged as a schema always carries one when it comes from
    the parser; with none there is nothing to hand to the callback. *)
Definition updateSchemaAndReferencedSchema
    (schema : option Schema) (callback : Callback) (st : St)
    : option Schema * St :=
  match schema with
  | None => (None, st)
  | Some schema =>
      let '(props, st) :=
        match Properties schema with
        | Some ps =>
            let '(ps', st) := forEachProperty callback ps st in (Some ps', st)
        | None => (None, st)
        end in
      let '(items, st) :=
        match Items schema with
        | Some d =>
            if DynamicValue.IsA d then
              match DynamicValue.A d with
              | Some item =>
                  let '(item', st) := callback item st in
                  (Some (DynamicValue.mk (DynamicValue.N d) (Some item')
                           (DynamicValue.B d)), st)
              | None => (Some d, st)
              end
            else (Some d, st)
        | None => (None, st)
        end in
      let '(allOf, st) := forEachSchema callback (AllOf schema) st in
      let '(oneOf, st) := forEachSchema callback (OneOf schema) st in
      let '(anyOf, st) := forEachSchema callback (AnyOf schema) st in
      let '(schema', st) :=
        callback (set_children props items allOf oneOf anyOf schema) st in
      (Some schema', st)
  end.
End Visitor.

(** A callback without captured state, such as the conversion rules. *)
Definition pureCallback (rule : Schema -> Schema) : @Callback unit :=
  fun schema st => (rule schema, st).

(** A callback that records, in call order, each schema it is handed. *)
Definition recordingCallback : @Callback (list Schema) :=
  fun schema visited => (schema, visited ++ [schema]).

(** The sub-schemas one level below a schema, in the order of the five
    loops of the visitor. *)
Definition children (s : Schema) : list Schema :=
  match Properties s with Some ps => ps.*2 | None => [] end
  ++ match Items s with
     | Some d =>
         if DynamicValue.IsA d
         then match DynamicValue.A d with Some item => [item] | None => [] end
         else []
     | None => []
     end
  ++ AllOf s ++ OneOf s ++ AnyOf s.

(** ** Go's [strings] functions used by the Swagger post-processing *)

Module Strings.
Fixpoint lastIndexByteFrom (c : Ascii.ascii) (s : string) (i found : Z) : Z :=
  match s with
  | EmptyString => found
  | String a rest =>
      lastIndexByteFrom c rest (i + 1)%Z (if Ascii.eqb a c then i else found)
  end.

(** [strings.LastIndex(s, sep)] for a one-byte [sep]: the index of its
    last occurrence, or -1. *)
Definition LastIndexByte (s : string) (c : Ascii.ascii) : Z :=
  lastIndexByteFrom c s 0%Z (-1)%Z.

(** The slice expression [s[n:]]. *)
Fixpoint sliceFrom (n : nat) (s : string) : string :=
  match n, s with
  | O, _ => s
  | S n, String _ rest => sliceFrom n rest
  | S _, EmptyString => EmptyString
  end.

(** [strings.Join(parts, sep)]. *)
Definition Join (parts : list string) (sep : string) : string :=
  String.concat sep parts.

(** [strings.TrimPrefix(s, prefix)]. *)
Definition TrimPrefix (s prefix : string) : string :=
  if String.prefix prefix s then sliceFrom (String.length prefix) s else s.
End Strings.

(** ** The Swagger 2.0 document model (kin-openapi's [openapi2]) *)

Definition nl : string := String (Ascii.ascii_of_nat 10) EmptyString.
Definition dq : string := String (Ascii.ascii_of_nat 34) EmptyString.

Module openapi2.
(** [openapi2.SchemaRef] and [openapi2.Schema], with the fields that the
    injected definitions set. [AdditionalProperties] holds the schema
    reference of [openapi3.AdditionalProperties]. *)
Inductive SchemaRef : Type := mkSchemaRef {
  Ref : string;
  Value : option Schema
}
with Schema : Type := mkSchema {
  Type_ : option (list string);
  Format : string;
  Description : string;
  Properties : gmap string SchemaRef;
  Items : option SchemaRef;
  AdditionalProperties : option SchemaRef
}.

Module Response.
Record t : Type := mk {
  Description : string;
  Schema : option SchemaRef
}.
End Response.

Module Operation.
Record t : Type := mk {
  Summary : string;
  Description : string;
  Tags : list string;
  OperationID : string;
  Responses : option (gmap string Response.t)
}.
End Operation.

Module PathItem.
Record t : Type := mk {
  Delete : option Operation.t;
  Get : option Operation.t;
  Head : option Operation.t;
  Options : option Operation.t;
  Patch : option Operation.t;
  Post : option Operation.t;
  Put : option Operation.t
}.
End PathItem.

(** [openapi2.T], the document. *)
Module T.
Record t : Type :=
  mk { Definitions : option (gmap string SchemaRef);
       Paths : gmap string PathItem.t }.
End T.
End openapi2.

(** ** The Swagger 2.0 post-processing pass *)

Definition underscore : Ascii.ascii := Ascii.ascii_of_nat 95.

(** The method name taken from [operation.OperationID]. *)
Definition methodNameOf (operationID : string) : string :=
  if negb (String.eqb operationID EmptyString) then
    let idx := Strings.LastIndexByte operationID underscore in
    if (0 <=? idx)%Z && (idx <? Z.of_nat (String.length operationID) - 1)%Z
    then Strings.sliceFrom (Z.to_nat (idx + 1)) operationID
    else operationID
  else EmptyString.

(** The text appended to the description, [grpcInfo]. *)
Definition grpcInfoOf (operation : openapi2.Operation.t) : string :=
  let grpcClientName :=
    match openapi2.Operation.Tags operation with
    | tag :: _ => tag
    | [] => EmptyString
    end in
  let methodName := methodNameOf (openapi2.Operation.OperationID operation) in
  if negb (String.eqb grpcClientName EmptyString)
     || negb (String.eqb methodName EmptyString) then
    let parts := [] in
    let parts :=
      if negb (String.eqb grpcClientName EmptyString)
      then parts ++ ["gRPC客户端名称：" +:+ grpcClientName] else parts in
    let parts :=
      if negb (String.eqb methodName EmptyString)
      then parts ++ ["接口方法名称：" +:+ methodName] else parts in
    if 0 <? length parts
    then nl +:+ nl +:+ Strings.Join parts nl
    else EmptyString
  else EmptyString.

Definition set_Summary (v : string) (o : openapi2.Operation.t) : openapi2.Operation.t :=
  openapi2.Operation.mk v (openapi2.Operation.Description o) (openapi2.Operation.Tags o)
    (openapi2.Operation.OperationID o) (openapi2.Operation.Responses o).

Definition set_Description (v : string) (o : openapi2.Operation.t) : openapi2.Operation.t :=
  openapi2.Operation.mk (openapi2.Operation.Summary o) v (openapi2.Operation.Tags o)
    (openapi2.Operation.OperationID o) (openapi2.Operation.Responses o).

Definition set_Tags (v : list string) (o : openapi2.Operation.t) : openapi2.Operation.t :=
  openapi2.Operation.mk (openapi2.Operation.Summary o) (openapi2.Operation.Description o) v
    (openapi2.Operation.OperationID o) (openapi2.Operation.Responses o).

Definition set_Responses (v : option (gmap string openapi2.Response.t))
    (o : openapi2.Operation.t) : openapi2.Operation.t :=
  openapi2.Operation.mk (openapi2.Operation.Summary o) (openapi2.Operation.Description o)
    (openapi2.Operation.Tags o) (openapi2.Operation.OperationID o) v.

(** [copyDescriptionToSummary]; a nil operation is [None]. *)
Definition copyDescriptionToSummary (operation : option openapi2.Operation.t)
    : option openapi2.Operation.t :=
  match operation with
  | None => None
  | Some operation =>
      let grpcInfo := grpcInfoOf operation in
      let operation :=
        if String.eqb (openapi2.Operation.Summary operation) EmptyString
           && negb (String.eqb (openapi2.Operation.Description operation) EmptyString)
        then set_Summary (openapi2.Operation.Description operation) operation
        else operation in
      Some
        (if negb (String.eqb grpcInfo EmptyString) then
           if negb (String.eqb (openapi2.Operation.Description operation) EmptyString)
           then set_Description (openapi2.Operation.Description operation +:+ grpcInfo)
                  operation
           else set_Description (Strings.TrimPrefix grpcInfo (nl +:+ nl))
                  operation
         else operation)
  end.

(** The loop of [deduplicateTags]: the [seen] map and the [uniqueTags]
    slice after ranging over the tags. *)
Definition uniqueTagsOf (tags : list string) : gset string * list string :=
  foldl (fun acc tag =>
           if bool_decide (tag ∈ fst acc) then acc
           else ({[tag]} ∪ fst acc, snd acc ++ [tag]))
        (∅, []) tags.

(** [deduplicateTags]. *)
Definition deduplicateTags (operation : option openapi2.Operation.t)
    : option openapi2.Operation.t :=
  match operation with
  | None => None
  | Some operation =>
      if length (openapi2.Operation.Tags operation) =? 0 then Some operation
      else Some (set_Tags (snd (uniqueTagsOf (openapi2.Operation.Tags operation)))
                   operation)
  end.

(** The response stored under ["default"]. *)
Definition defaultErrorResponse : openapi2.Response.t :=
  openapi2.Response.mk "An unexpected error response."
    (Some (openapi2.mkSchemaRef "#/definitions/rpcStatus" None)).

(** [addDefaultErrorResponseToOperation]. *)
Definition addDefaultErrorResponseToOperation (operation : option openapi2.Operation.t)
    : option openapi2.Operation.t :=
  match operation with
  | None => None
  | Some operation =>
      let responses :=
        match openapi2.Operation.Responses operation with
        | Some rs => rs
        | None => ∅
        end in
      Some (set_Responses (Some (<["default" := defaultErrorResponse]> responses))
              operation)
  end.

(** The zero values [openapi2.Schema{}] and [openapi3.Schema{}]. *)
Definition zeroSchema2 : openapi2.Schema :=
  openapi2.mkSchema None EmptyString EmptyString ∅ None None.

(** The two documentation texts of the injected [googleprotobufAny]
    definition. *)
Definition googleprotobufAnyDescription : string :=
  String.concat nl
    [ "`Any` contains an arbitrary serialized protocol buffer message along with a";
      "URL that describes the type of the serialized message.";
      EmptyString;
      "Protobuf library provides support to pack/unpack Any values in the form";
      "of utility functions or additional generated methods of the Any type.";
      EmptyString;
      "Example 1: Pack and unpack a message in C++.";
      EmptyString;
      "    Foo foo = ...;";
      "    Any any;";
      "    any.PackFrom(foo);";
      "    ...";
      "    if (any.UnpackTo(&foo)) {";
      "      ...";
      "    }";
      EmptyString;
      "Example 2: Pack and unpack a message in Java.";
      EmptyString;
      "    Foo foo = ...;";
      "    Any any = Any.pack(foo);";
      "    ...";
      "    if (any.is(Foo.class)) {";
      "      foo = any.unpack(Foo.class);";
      "    }";
      EmptyString;
      "Example 3: Pack and unpack a message in Python.";
      EmptyString;
      "    foo = Foo(...)";
      "    any = Any()";
      "    any.Pack(foo)";
      "    ...";
      "    if any.Is(Foo.DESCRIPTOR):";
      "      any.Unpack(foo)";
      "      ...";
      EmptyString;
      "Example 4: Pack and unpack a message in Go";
      EmptyString;
      "     foo := &pb.Foo{...}";
      "     any, err := anypb.New(foo)";
      "     if err != nil {";
      "       ...";
      "     }";
      "     ...";
      "     foo := &pb.Foo{}";
      "     if err := any.UnmarshalTo(foo); err != nil {";
      "       ...";
      "     }";
      EmptyString;
      "The pack methods provided by protobuf library will by default use";
      "'type.googleapis.com/full.type.name' as the type URL and the unpack";
      "methods only use the fully qualified type name after the last '/'";
      "in the type URL, for example " +:+ dq +:+ "foo.bar.com/x/y.z" +:+ dq +:+ " will yield type";
      "name " +:+ dq +:+ "y.z" +:+ dq +:+ ".";
      EmptyString;
      EmptyString;
      "JSON";
      EmptyString;
      "The JSON representation of an `Any` value uses the regular";
      "representation of the deserialized, embedded message, with an";
      "additional field `@type` which contains the type URL. Example:";
      EmptyString;
      "    package google.profile;";
      "    message Person {";
      "      string first_name = 1;";
      "      string last_name = 2;";
      "    }";
      EmptyString;
      "    {";
      "      " +:+ dq +:+ "@type" +:+ dq +:+ ": " +:+ dq +:+ "type.googleapis.com/google.profile.Person" +:+ dq +:+ ",";
      "      " +:+ dq +:+ "firstName" +:+ dq +:+ ": <string>,";
      "      " +:+ dq +:+ "lastName" +:+ dq +:+ ": <string>";
      "    }";
      EmptyString;
      "If the embedded message type is well-known and has a custom JSON";
      "representation, that representation will be embedded adding a field";
      "`value` which holds the custom JSON in addition to the `@type`";
      "field. Example (for message [google.protobuf.Duration][]):";
      EmptyString;
      "    {";
      "      " +:+ dq +:+ "@type" +:+ dq +:+ ": " +:+ dq +:+ "type.googleapis.com/google.protobuf.Duration" +:+ dq +:+ ",";
      "      " +:+ dq +:+ "value" +:+ dq +:+ ": " +:+ dq +:+ "1.212s" +:+ dq;
      "    }" ].

Definition typeUrlDescription : string :=
  String.concat nl
    [ "A URL/resource name that uniquely identifies the type of the serialized";
      "protocol buffer message. This string must contain at least";
      "one " +:+ dq +:+ "/" +:+ dq +:+ " character. The last segment of the URL's path must represent";
      "the fully qualified name of the type (as in";
      "`path/google.protobuf.Duration`). The name should be in a canonical form";
      "(e.g., leading " +:+ dq +:+ "." +:+ dq +:+ " is not accepted).";
      EmptyString;
      "In practice, teams usually precompile into the binary all types that they";
      "expect it to use in the context of Any. However, for URLs which use the";
      "scheme `http`, `https`, or no scheme, one can optionally set up a type";
      "server that maps type URLs to message definitions as follows:";
      EmptyString;
      "* If no scheme is provided, `https` is assumed.";
      "* An HTTP GET on the URL must yield a [google.protobuf.Type][]";
      "  value in binary format, or produce an error.";
      "* Applications are allowed to cache lookup results based on the";
      "  URL, or have them precompiled into a binary to avoid any";
      "  lookup. Therefore, binary compatibility needs to be preserved";
      "  on changes to types. (Use versioned type names to manage";
      "  breaking changes.)";
      EmptyString;
      "Note: this functionality is not currently available in the official";
      "protobuf release, and it is not used for type URLs beginning with";
      "type.googleapis.com.";
      EmptyString;
      "Schemes other than `http`, `https` (or the empty scheme) might be";
      "used with implementation specific semantics." ].

(** The definition injected as ["googleprotobufAny"]. *)
Definition googleprotobufAny : openapi2.SchemaRef :=
  openapi2.mkSchemaRef EmptyString
    (Some (openapi2.mkSchema (Some ["object"]) EmptyString
             googleprotobufAnyDescription
             {[ "@type" :=
                  openapi2.mkSchemaRef EmptyString
                    (Some (openapi2.mkSchema (Some ["string"]) EmptyString
                             typeUrlDescription ∅ None None)) ]}
             None
             (Some (openapi2.mkSchemaRef EmptyString (Some zeroSchema2))))).

(** The definition injected as ["rpcStatus"]. *)
Definition rpcStatus : openapi2.SchemaRef :=
  openapi2.mkSchemaRef EmptyString
    (Some (openapi2.mkSchema (Some ["object"]) EmptyString EmptyString
             (<["code" :=
                  openapi2.mkSchemaRef EmptyString
                    (Some (openapi2.mkSchema (Some ["integer"]) "int32"
                             EmptyString ∅ None None))]>
              (<["message" :=
                  openapi2.mkSchemaRef EmptyString
                    (Some (openapi2.mkSchema (Some ["string"]) EmptyString
                             EmptyString ∅ None None))]>
              (<["details" :=
                  openapi2.mkSchemaRef EmptyString
                    (Some (openapi2.mkSchema (Some ["array"]) EmptyString
                             EmptyString ∅
                             (Some (openapi2.mkSchemaRef
                                      "#/definitions/googleprotobufAny" None))
                             None))]> ∅)))
             None None)).

(** [if _, exists := defs[name]; !exists { defs[name] = ref }]. *)
Definition addIfAbsent (name : string) (ref : openapi2.SchemaRef)
    (defs : gmap string openapi2.SchemaRef) : gmap string openapi2.SchemaRef :=
  match defs !! name with
  | Some _ => defs
  | None => <[name := ref]> defs
  end.

(** One of the three groups of seven calls in the loop body of
    [addDefaultErrorResponses], in the order of the source. *)
Definition onOperations (f : option openapi2.Operation.t -> option openapi2.Operation.t)
    (path : openapi2.PathItem.t) : openapi2.PathItem.t :=
  let delete := f (openapi2.PathItem.Delete path) in
  let get := f (openapi2.PathItem.Get path) in
  let head := f (openapi2.PathItem.Head path) in
  let options := f (openapi2.PathItem.Options path) in
  let patch := f (openapi2.PathItem.Patch path) in
  let post := f (openapi2.PathItem.Post path) in
  let put := f (openapi2.PathItem.Put path) in
  openapi2.PathItem.mk delete get head options patch post put.

(** [addDefaultErrorResponses]. The path items of a document that
    [openapi2conv.FromV3] has just built are distinct objects, so the loop
    over the map rewrites each value independently of the iteration order. *)
Definition addDefaultErrorResponses (kinSwaggerDoc : openapi2.T.t) : openapi2.T.t :=
  let definitions :=
    match openapi2.T.Definitions kinSwaggerDoc with
    | Some defs => defs
    | None => ∅
    end in
  let definitions := addIfAbsent "googleprotobufAny" googleprotobufAny definitions in
  let definitions := addIfAbsent "rpcStatus" rpcStatus definitions in
  openapi2.T.mk (Some definitions)
    ((fun path =>
        onOperations addDefaultErrorResponseToOperation
          (onOperations deduplicateTags
             (onOperations copyDescriptionToSummary path)))
       <$> openapi2.T.Paths kinSwaggerDoc).

(** The seven operation slots of a path item. *)
Inductive Method : Type :=
  | DELETE | GET | HEAD | OPTIONS | PATCH | POST | PUT.

Definition operationOf (m : Method) (path : openapi2.PathItem.t) : option openapi2.Operation.t :=
  match m with
  | DELETE => openapi2.PathItem.Delete path
  | GET => openapi2.PathItem.Get path
  | HEAD => openapi2.PathItem.Head path
  | OPTIONS => openapi2.PathItem.Options path
  | PATCH => openapi2.PathItem.Patch path
  | POST => openapi2.PathItem.Post path
  | PUT => openapi2.PathItem.Put path
  end.

(** ** The conversion orchestrator *)

(** [SpecVersion], with its [iota] values. *)
Inductive SpecVersion : Type := Swagger | OpenAPI30 | OpenAPI31.

Definition SpecVersion_value (v : SpecVersion) : Z :=
  match v with
  | Swagger => 0
  | OpenAPI30 => 1
  | OpenAPI31 => 2
  end.

Definition bytes : Type := list Byte.byte.

(** A Go result pair [([]byte, error)]: either the data with a nil error, or
    nil data with an error, of which the message is kept. *)
Inductive Result : Type :=
  | Converted (data : bytes)
  | Failed (message : string).

(** The local type [BasicDoc] of [convertDocument]. *)
Module BasicDoc.
Record t : Type := mk { OpenAPI : string; Swagger : string }.
End BasicDoc.

(** What [convertDocument] calls and does not define by itself on the
    document bytes: [yaml.Unmarshal] into a [BasicDoc] ([None] when it
    returns an error) and the four single-step converters, each of which
    parses, rewrites and re-serialises a whole document through libopenapi
    and kin-openapi. *)
Record Backend : Type := mkBackend {
  yamlUnmarshal : bytes -> option BasicDoc.t;
  convertSwaggerToOpenAPI30 : bytes -> Result;
  convertOpenAPI30To31 : bytes -> Result;
  convertOpenAPI31To30 : bytes -> Result;
  convertOpenAPI30ToSwagger : bytes -> Result
}.

(** The [switch] on the version string. *)
Definition detectVersion (marker : string) : option SpecVersion :=
  if String.eqb marker "2.0" then Some Swagger
  else if String.eqb marker "3.0.0" || String.eqb marker "3.0.1"
          || String.eqb marker "3.0.2" || String.eqb marker "3.0.3"
          || String.eqb marker "3.0.4" then Some OpenAPI30
  else if String.eqb marker "3.1.0" || String.eqb marker "3.1.1"
  then Some OpenAPI31
  else None.

(** The version string that the [switch] inspects: the [openapi] field, or
    the [swagger] field when that one is empty. *)
Definition versionMarker (basicDoc : BasicDoc.t) : string :=
  if String.length (BasicDoc.OpenAPI basicDoc) =? 0
  then BasicDoc.Swagger basicDoc
  else BasicDoc.OpenAPI basicDoc.

Definition unsupportedVersionMessage (marker : string) : string :=
  "Unsuppoted input document OpenAPI version: " +:+ marker.

(** One conversion step, recorded as the version it started from and the
    version it declared as its output. *)
Definition Step : Type := (SpecVersion * SpecVersion)%type.

Section Orchestrator.
Variable backend : Backend.

(** The body of the [for] loop up to the error check: the result of the
    single-step converter it picks and the new [inputVersion]. *)
Definition loopBody (data : bytes) (inputVersion outputVersion : SpecVersion)
    : Result * SpecVersion :=
  if (SpecVersion_value inputVersion <? SpecVersion_value outputVersion)%Z then
    match inputVersion with
    | Swagger => (convertSwaggerToOpenAPI30 backend data, OpenAPI30)
    | _ => (convertOpenAPI30To31 backend data, OpenAPI31)
    end
  else
    match inputVersion with
    | OpenAPI31 => (convertOpenAPI31To30 backend data, OpenAPI30)
    | _ => (convertOpenAPI30ToSwagger backend data, Swagger)
    end.

(** [for inputVersion != outputVersion { ... }], bounded by [fuel]
    iterations: [None] when the loop is still running after that many.
    The steps taken are returned next to its result. *)
Fixpoint convertLoop (fuel : nat) (data : bytes)
    (inputVersion outputVersion : SpecVersion) : option (list Step * Result) :=
  if (SpecVersion_value inputVersion =? SpecVersion_value outputVersion)%Z
  then Some ([], Converted data)
  else
    match fuel with
    | O => None
    | S fuel =>
        let '(r, nextVersion) := loopBody data inputVersion outputVersion in
        match r with
        | Failed message => Some ([(inputVersion, nextVersion)], Failed message)
        | Converted data =>
            match convertLoop fuel data nextVersion outputVersion with
            | Some (steps, r) => Some ((inputVersion, nextVersion) :: steps, r)
            | None => None
            end
        end
    end.

(** [convertDocument]. *)
Definition convertDocument (fuel : nat) (data : bytes)
    (outputVersion : SpecVersion) : option (list Step * Result) :=
  match yamlUnmarshal backend data with
  | None => Some ([], Failed "Cannot parse Swagger or OpenAPI document")
  | Some basicDoc =>
      match detectVersion (versionMarker basicDoc) with
      | None => Some ([], Failed (unsupportedVersionMessage (versionMarker basicDoc)))
      | Some inputVersion => convertLoop fuel data inputVersion outputVersion
      end
  end.
End Orchestrator.

(** A backend on which the loop can be run: the version marker is the whole
    document, as a one-byte code, and each converter writes the marker of
    its output version, except that upgrading to 3.1 fails on an empty
    document. *)
Definition markerBackend : Backend :=
  mkBackend
    (fun data =>
       match data with
       | [b] =>
           Some (BasicDoc.mk
                   (if Byte.eqb b Byte.x30 then "3.0.0"
                    else if Byte.eqb b Byte.x31 then "3.1.0"
                    else if Byte.eqb b Byte.x34 then "4.0.0"
                    else EmptyString)
                   (if Byte.eqb b Byte.x20 then "2.0" else EmptyString))
       | _ => None
       end)
    (fun _ => Converted [Byte.x30])
    (fun data => match data with [] => Failed "empty" | _ => Converted [Byte.x31] end)
    (fun _ => Converted [Byte.x30])
    (fun _ => Converted [Byte.x20]).

(** ** Reading a bound and its indicator *)

(** The limits that a bound and its exclusivity indicator put on a value,
    each with whether it is exclusive: a boolean indicator qualifies the
    separate bound, a numeric one is an exclusive limit of its own. *)
Definition effectiveBounds (p : BoundPair) : list (float64 * bool) :=
  let '(bound, exclusiveBound) := p in
  let inclusive :=
    match bound with
    | Some b => [(b, false)]
    | None => []
    end in
  match exclusiveBound with
  | Some e =>
      if DynamicValue.IsA e then
        match bound with
        | Some b => [(b, DynamicValue.A e)]
        | None => []
        end
      else if DynamicValue.IsB e then inclusive ++ [(DynamicValue.B e, true)]
      else inclusive
  | None => inclusive
  end.

(** Whether [x] respects every limit, read as lower limits. *)
Definition aboveLimits (limits : list (float64 * bool)) (x : float64) : bool :=
  forallb (fun l : float64 * bool => if snd l then PrimFloat.ltb (fst l) x
                    else PrimFloat.leb (fst l) x) limits.

(** A separate bound together with an indicator in numeric form. *)
Definition hasBothForms (p : BoundPair) : bool :=
  match p with
  | (Some _, Some e) => DynamicValue.IsB e
  | _ => false
  end.

(** ** Sample fragments *)

(** [{type: [string], nullable: true}]. *)
Definition nullableString : Schema :=
  set_Nullable (Some true) (set_Type ["string"] zeroSchema).

(** An object whose property [inner] is [nullableString]. *)
Definition middleObject : Schema :=
  set_children (Some [("inner", nullableString)]) None [] [] []
    (set_Type ["object"] zeroSchema).

(** An object whose property [middle] is [middleObject], so that
    [nullableString] lies two levels below it. *)
Definition outerObject : Schema :=
  set_children (Some [("middle", middleObject)]) None [] [] []
    (set_Type ["object"] zeroSchema).

(** [{type: [string], format: date-time}], as parsed from a document. *)
Definition dateTimeString : Schema :=
  set_GoLow (Some (mkLow EmptyString EmptyString))
    (set_Format "date-time" (set_Type ["string"] zeroSchema)).

(** [{minimum: 20, exclusiveMinimum: 10}], a 3.1 fragment. *)
Definition bothMinimums : Schema :=
  set_MinimumPair
    (Some 20%float, Some (DynamicValue.mk 1%Z false 10%float)) zeroSchema.

(** A Swagger document with one path, [/pets], whose only operation is a
    GET with a description, no summary, a repeated tag and responses for
    200 and for default; it has no definitions. *)
Definition listPets : openapi2.Operation.t :=
  openapi2.Operation.mk EmptyString "List pets" ["PetService"; "PetService"]
    "PetService_List"
    (Some (<["200" := openapi2.Response.mk "ok" None]>
           (<["default" := openapi2.Response.mk "old" None]> ∅))).

Definition petsPath : openapi2.PathItem.t :=
  openapi2.PathItem.mk None (Some listPets) None None None None None.

Definition petsDoc : openapi2.T.t :=
  openapi2.T.mk None (<["/pets" := petsPath]> ∅).

(** * The rest of the converter *)

(** ** The rules on fields that the [Schema] record above leaves out *)

(** [schema.Example] and [schema.Examples], the two fields that the example
    rules read and write; [Node] stands for [yaml.Node]. *)
Definition ExampleFields (Node : Type) : Type := (option Node * list Node)%type.

(** [convert30ExampleTo31Examples]. *)
Definition convert30ExampleTo31Examples {Node} (p : ExampleFields Node)
    : ExampleFields Node :=
  match fst p with
  | Some example => (None, [example])
  | None => p
  end.

(** [convert31ExamplesTo30Example]. *)
Definition convert31ExamplesTo30Example {Node} (p : ExampleFields Node)
    : ExampleFields Node :=
  if 1 <=? length (snd p) then
    match snd p with
    | first :: _ => (Some first, [])
    | [] => p
    end
  else p.

(** libopenapi's insertion-ordered map with string keys, as the list of its
    pairs from the oldest. [omapGet] is its [Get]. *)
Fixpoint omapGet {V} (key : string) (m : list (string * V)) : option V :=
  match m with
  | [] => None
  | (k, v) :: rest => if String.eqb k key then Some v else omapGet key rest
  end.

(** [if v, ok := m.Get(key); ok { ... }] with a body that rewrites the
    value, which the map holds by pointer. *)
Fixpoint omapUpdate {V} (key : string) (f : V -> V) (m : list (string * V))
    : list (string * V) :=
  match m with
  | [] => []
  | (k, v) :: rest =>
      if String.eqb k key then (k, f v) :: rest
      else (k, v) :: omapUpdate key f rest
  end.

(** [schema.Required] and, for each property of [schema.Properties], the
    [ReadOnly] pointer of its schema: what
    [make30RequiredAndReadonlyPropertiesOnlyReadonly] reads and writes. *)
Record RequiredFields : Type := mkRequiredFields {
  Required : list string;
  PropertyReadOnly : option (list (string * option bool))
}.

(** The [readonly] flag computed for one required name. *)
Definition isReadonly (properties : option (list (string * option bool)))
    (propName : string) : bool :=
  match properties with
  | Some ps =>
      match omapGet propName ps with
      | Some (Some b) => b
      | _ => false
      end
  | None => false
  end.

(** [make30RequiredAndReadonlyPropertiesOnlyReadonly]. *)
Definition make30RequiredAndReadonlyPropertiesOnlyReadonly
    (schema : RequiredFields) : RequiredFields :=
  match PropertyReadOnly schema with
  | Some _ =>
      if 0 <? length (Required schema) then
        mkRequiredFields
          (foldl (fun newRequired propName =>
                    if negb (isReadonly (PropertyReadOnly schema) propName)
                    then newRequired ++ [propName] else newRequired)
                 [] (Required schema))
          (PropertyReadOnly schema)
      else schema
  | None => schema
  end.

Section ContentFields.
(** [NodeReference.Mutate] belongs to libopenapi: [Mutate v old] is the
    [Value] that the field holds after the call [field.Mutate(v)], given
    that it held [old]. *)
Variable Mutate : string -> string -> string.

(** [convert31ContentFieldsTo30Formats]. *)
Definition convert31ContentFieldsTo30Formats (schema : Schema) : Schema :=
  if soleTypeIsString schema then
    match GoLow schema with
    | Some lowSchema =>
        let mediaType := ContentMediaType lowSchema in
        let encoding := ContentEncoding lowSchema in
        let '(schema, mediaType') :=
          if 0 <? String.length mediaType then
            (if String.eqb mediaType "application/octet-stream"
             then set_Format "binary" schema else schema,
             Mutate EmptyString mediaType)
          else (schema, mediaType) in
        let '(schema, encoding') :=
          if 0 <? String.length encoding then
            (if String.eqb encoding "base64"
             then set_Format "base64" schema else schema,
             Mutate EmptyString encoding)
          else (schema, encoding) in
        set_GoLow (Some (mkLow mediaType' encoding')) schema
    | None => schema
    end
  else schema.

(** The callback that [convertOpenAPI30To31] hands to [updateAllSchema], on
    a schema and its example fields. *)
Definition callback30To31 {Node} (schema : Schema) (examples : ExampleFields Node)
    : Schema * ExampleFields Node :=
  let schema := convert30NullablesTo31TypeArrays schema in
  let schema := convert30MinMaxTo31 schema in
  let examples := convert30ExampleTo31Examples examples in
  let schema := convert30FormatsTo31ContentFields schema in
  (schema, examples).

(** The callback that [convertOpenAPI31To30] hands to [updateAllSchema]. *)
Definition callback31To30 {Node} (schema : Schema) (examples : ExampleFields Node)
    : Schema * ExampleFields Node :=
  let schema := convert31TypeArraysTo30 schema in
  let schema := convert31MinMaxTo30 schema in
  let examples := convert31ExamplesTo30Example examples in
  let schema := convert31ContentFieldsTo30Formats schema in
  (schema, examples).
End ContentFields.

(** ** The OpenAPI 3 document model and the document-wide passes *)

Module v3.
Module MediaType.
Record t : Type := mk { Schema : option Schema }.
End MediaType.

Module RequestBody.
Record t : Type := mk { Content : option (list (string * MediaType.t)) }.
End RequestBody.

Module Response.
Record t : Type := mk { Content : option (list (string * MediaType.t)) }.
End Response.

Module Responses.
Record t : Type := mk { Codes : option (list (string * Response.t)) }.
End Responses.

Module Operation.
Record t : Type := mk {
  RequestBody : option RequestBody.t;
  Responses : option Responses.t
}.
End Operation.

(** A path item, as the ordered map of its operations that
    [GetOperations()] returns. *)
Module PathItem.
Record t : Type := mk { GetOperations : list (string * Operation.t) }.
End PathItem.

Module Paths.
Record t : Type := mk { PathItems : option (list (string * PathItem.t)) }.
End Paths.

(** [v3.Parameter], with the schema that [value.Schema.Schema()] returns. *)
Module Param.
Record t : Type := mk { Schema : option Schema }.
End Param.

Module Components.
Record t : Type := mk {
  Schemas : option (list (string * Schema));
  Parameters : option (list (string * Param.t))
}.
End Components.

(** [v3.Document], the [Model] of a [libopenapi.DocumentModel]. *)
Module Document.
Record t : Type := mk {
  Version : string;
  Components : option Components.t;
  Paths : option Paths.t
}.
End Document.
End v3.

Section DocumentVisitor.
Context {St : Type}.

(** [for value := range m.ValuesFromOldest() { ... }] with a body that
    rewrites the value in place and updates the state. *)
Fixpoint forEachOldest {V} (body : V -> St -> V * St) (m : list (string * V))
    (st : St) : list (string * V) * St :=
  match m with
  | [] => ([], st)
  | (k, v) :: rest =>
      let '(v', st) := body v st in
      let '(rest', st) := forEachOldest body rest st in
      ((k, v') :: rest', st)
  end.

(** The same loop over a map that may be nil, where the source checks it. *)
Definition forEachOldestOpt {V} (body : V -> St -> V * St)
    (m : option (list (string * V))) (st : St)
    : option (list (string * V)) * St :=
  match m with
  | Some m => let '(m', st) := forEachOldest body m st in (Some m', st)
  | None => (None, st)
  end.

Variable callback : @Callback St.

(** The loop over the media types of a content map, with its nil check on
    [Schema]. *)
Definition updateMediaType (content : v3.MediaType.t) (st : St)
    : v3.MediaType.t * St :=
  match v3.MediaType.Schema content with
  | Some schema =>
      let '(schema', st) :=
        updateSchemaAndReferencedSchema (Some schema) callback st in
      (v3.MediaType.mk schema', st)
  | None => (content, st)
  end.

(** The body of the loop over the response codes of an operation. *)
Definition updateResponseSchema (code : v3.Response.t) (st : St)
    : v3.Response.t * St :=
  let '(content, st) :=
    forEachOldestOpt updateMediaType (v3.Response.Content code) st in
  (v3.Response.mk content, st).

(** The body of the loop over the operations of a path item. *)
Definition updateOperationSchema (operation : v3.Operation.t) (st : St)
    : v3.Operation.t * St :=
  let '(requestBody, st) :=
    match v3.Operation.RequestBody operation with
    | Some rb =>
        let '(content, st) :=
          forEachOldestOpt updateMediaType (v3.RequestBody.Content rb) st in
        (Some (v3.RequestBody.mk content), st)
    | None => (None, st)
    end in
  let '(responses, st) :=
    match v3.Operation.Responses operation with
    | Some rs =>
        let '(codes, st) :=
          forEachOldestOpt updateResponseSchema (v3.Responses.Codes rs) st in
        (Some (v3.Responses.mk codes), st)
    | None => (None, st)
    end in
  (v3.Operation.mk requestBody responses, st).

(** The body of the loop over the path items. *)
Definition updatePathItemSchema (pathItem : v3.PathItem.t) (st : St)
    : v3.PathItem.t * St :=
  let '(operations, st) :=
    forEachOldest updateOperationSchema (v3.PathItem.GetOperations pathItem) st in
  (v3.PathItem.mk operations, st).

(** The body of the loop over the component schemas. *)
Definition updateComponentSchema (value : Schema) (st : St) : Schema * St :=
  let '(value', st) := updateSchemaAndReferencedSchema (Some value) callback st in
  (default value value', st).

(** The body of the loop over the component parameters. *)
Definition updateParameterSchema (value : v3.Param.t) (st : St)
    : v3.Param.t * St :=
  let '(schema', st) :=
    updateSchemaAndReferencedSchema (v3.Param.Schema value) callback st in
  (v3.Param.mk schema', st).

(** [updateAllSchema]. *)
Definition updateAllSchema (model : v3.Document.t) (st : St)
    : v3.Document.t * St :=
  let '(schemas, st) :=
    match v3.Document.Components model with
    | Some components =>
        forEachOldestOpt updateComponentSchema
          (v3.Components.Schemas components) st
    | None => (None, st)
    end in
  let '(parameters, st) :=
    match v3.Document.Components model with
    | Some components =>
        forEachOldestOpt updateParameterSchema
          (v3.Components.Parameters components) st
    | None => (None, st)
    end in
  let '(paths, st) :=
    match v3.Document.Paths model with
    | Some paths =>
        let '(pathItems, st) :=
          forEachOldestOpt updatePathItemSchema (v3.Paths.PathItems paths) st in
        (Some (v3.Paths.mk pathItems), st)
    | None => (None, st)
    end in
  (v3.Document.mk (v3.Document.Version model)
     match v3.Document.Components model with
     | Some _ => Some (v3.Components.mk schemas parameters)
     | None => None
     end
     paths, st).
End DocumentVisitor.

(** The loops and nil checks that the three request-body passes share: the
    path items, their operations, and the content map of each request
    body, to which [body] is applied. *)
Definition onRequestBodyContents
    (body : list (string * v3.MediaType.t) -> list (string * v3.MediaType.t))
    (model : v3.Document.t) : v3.Document.t :=
  v3.Document.mk (v3.Document.Version model) (v3.Document.Components model)
    match v3.Document.Paths model with
    | Some paths =>
        Some (v3.Paths.mk
          match v3.Paths.PathItems paths with
          | Some pathItems =>
              Some (prod_map id
                      (fun pathItem =>
                         v3.PathItem.mk
                           (prod_map id
                              (fun operation =>
                                 v3.Operation.mk
                                   match v3.Operation.RequestBody operation with
                                   | Some rb =>
                                       Some (v3.RequestBody.mk
                                               (body <$> v3.RequestBody.Content rb))
                                   | None => None
                                   end
                                   (v3.Operation.Responses operation))
                              <$> v3.PathItem.GetOperations pathItem))
                      <$> pathItems)
          | None => None
          end)
    | None => None
    end.

Definition octetStream : string := "application/octet-stream".

(** [base.Schema{Type: []string{"string"}, Format: "binary"}]. *)
Definition binaryStringSchema : Schema :=
  set_Format "binary" (set_Type ["string"] zeroSchema).

(** [base.Schema{Type: []string{"object"}}]. *)
Definition objectSchema : Schema := set_Type ["object"] zeroSchema.

(** [clear30RequestFileContentSchemaFor31]. *)
Definition clear30RequestFileContentSchemaFor31 (model : v3.Document.t)
    : v3.Document.t :=
  onRequestBodyContents
    (omapUpdate octetStream (fun _ => v3.MediaType.mk None)) model.

(** [set31RequestFileContentSchemaFor30]. *)
Definition set31RequestFileContentSchemaFor30 (model : v3.Document.t)
    : v3.Document.t :=
  onRequestBodyContents
    (omapUpdate octetStream (fun _ => v3.MediaType.mk (Some binaryStringSchema)))
    model.

(** [ensureRequestBodyContentSchemas]. *)
Definition ensureRequestBodyContentSchemas (model : v3.Document.t)
    : v3.Document.t :=
  onRequestBodyContents
    (fmap (prod_map id
             (fun content =>
                match v3.MediaType.Schema content with
                | Some _ => content
                | None => v3.MediaType.mk (Some objectSchema)
                end)))
    model.

(** The root schemas of a document in the order in which [updateAllSchema]
    reaches them. *)
Definition contentSchemas (content : option (list (string * v3.MediaType.t)))
    : list Schema :=
  omap v3.MediaType.Schema (default [] content).*2.

Definition operationSchemas (operation : v3.Operation.t) : list Schema :=
  match v3.Operation.RequestBody operation with
  | Some rb => contentSchemas (v3.RequestBody.Content rb)
  | None => []
  end
  ++ match v3.Operation.Responses operation with
     | Some rs =>
         (default [] (v3.Responses.Codes rs)).*2
           ≫= (fun code => contentSchemas (v3.Response.Content code))
     | None => []
     end.

Definition documentRoots (model : v3.Document.t) : list Schema :=
  match v3.Document.Components model with
  | Some components =>
      (default [] (v3.Components.Schemas components)).*2
      ++ omap v3.Param.Schema
           (default [] (v3.Components.Parameters components)).*2
  | None => []
  end
  ++ match v3.Document.Paths model with
     | Some paths =>
         (default [] (v3.Paths.PathItems paths)).*2
           ≫= (fun pathItem =>
                 (v3.PathItem.GetOperations pathItem).*2 ≫= operationSchemas)
     | None => []
     end.

(** The content maps of the request bodies of a document, in the order of
    the loops. *)
Definition requestBodyContents (model : v3.Document.t)
    : list (list (string * v3.MediaType.t)) :=
  match v3.Document.Paths model with
  | Some paths =>
      (default [] (v3.Paths.PathItems paths)).*2
        ≫= (fun pathItem =>
              omap (fun operation =>
                      v3.Operation.RequestBody operation
                        ≫= v3.RequestBody.Content)
                   (v3.PathItem.GetOperations pathItem).*2)
  | None => []
  end.

(** ** Upload parameters of the Swagger 2.0 document *)

(** The fields of [openapi2.Parameter] (here [Param]), [openapi2.Operation]
    and [openapi2.PathItem] that the upload fix reads and writes. *)
Module Upload.
Module Param.
Record t : Type := mk { In : string; Schema : option openapi2.SchemaRef }.
End Param.

Module Operation.
Record t : Type := mk { Consumes : list string; Parameters : list Param.t }.
End Operation.

Module PathItem.
Record t : Type := mk {
  Delete : option Operation.t;
  Get : option Operation.t;
  Head : option Operation.t;
  Options : option Operation.t;
  Patch : option Operation.t;
  Post : option Operation.t;
  Put : option Operation.t
}.
End PathItem.
End Upload.

(** The schema reference given to a body parameter without schema. *)
Definition binaryStringRef : openapi2.SchemaRef :=
  openapi2.mkSchemaRef EmptyString
    (Some (openapi2.mkSchema (Some ["string"]) "binary" EmptyString ∅ None None)).

(** [fixSwaggerOperationUploadFormat]. *)
Definition fixSwaggerOperationUploadFormat (operation : option Upload.Operation.t)
    : option Upload.Operation.t :=
  match operation with
  | Some operation =>
      if bool_decide (octetStream ∈ Upload.Operation.Consumes operation) then
        Some (Upload.Operation.mk (Upload.Operation.Consumes operation)
                ((fun param =>
                    if String.eqb (Upload.Param.In param) "body"
                       && bool_decide (Upload.Param.Schema param = None)
                    then Upload.Param.mk (Upload.Param.In param)
                           (Some binaryStringRef)
                    else param)
                   <$> Upload.Operation.Parameters operation))
      else Some operation
  | None => None
  end.

(** [fixSwaggerDocUploadFormats], on the [Paths] map of the document. *)
Definition fixSwaggerDocUploadFormats (paths : gmap string Upload.PathItem.t)
    : gmap string Upload.PathItem.t :=
  (fun path =>
     let post := fixSwaggerOperationUploadFormat (Upload.PathItem.Post path) in
     let options := fixSwaggerOperationUploadFormat (Upload.PathItem.Options path) in
     let patch := fixSwaggerOperationUploadFormat (Upload.PathItem.Patch path) in
     let put := fixSwaggerOperationUploadFormat (Upload.PathItem.Put path) in
     Upload.PathItem.mk (Upload.PathItem.Delete path) (Upload.PathItem.Get path)
       (Upload.PathItem.Head path) options patch post put)
    <$> paths.

(** ** The data format of a document *)

Module Format.
Inductive t : Type := JSON | YAML.
End Format.

(** [checkDataFormat]. *)
Fixpoint checkDataFormat (data : bytes) : Format.t :=
  match data with
  | [] => Format.YAML
  | b :: rest =>
      if Byte.eqb b Byte.x7b then Format.JSON
      else if Byte.eqb b Byte.x20 || Byte.eqb b Byte.x09
              || Byte.eqb b Byte.x0d || Byte.eqb b Byte.x0a
      then checkDataFormat rest
      else Format.YAML
  end.

(** The bytes that [checkDataFormat] skips: space, tab, CR and LF. *)
Definition isBlank (b : Byte.byte) : bool :=
  Byte.eqb b Byte.x20 || Byte.eqb b Byte.x09
  || Byte.eqb b Byte.x0d || Byte.eqb b Byte.x0a.

(** * Properties *)

(** ** Nullability *)

Section Nullability.
Implicit Types (s : Schema) (ts : list string) (t : string).

Lemma scanTypes_fold ts (n : bool) (t0 : string) :
  fst (foldl (fun acc value =>
                if String.eqb value "null" then (true, snd acc)
                else (fst acc, value)) (n, t0) ts)
  = n || bool_decide ("null" ∈ ts).
Proof.
  revert n t0. induction ts as [|v ts IH]; intros n t0; cbn [foldl fst snd].
  - rewrite bool_decide_eq_false_2; [by rewrite orb_false_r | set_solver].
  - destruct (String.eqb_spec v "null") as [->|Hne]; rewrite IH; cbn [fst snd].
    + cbn [orb]. symmetry.
      rewrite bool_decide_eq_true_2 by set_solver. apply orb_true_r.
    + destruct n; [done|]. cbn [orb].
      apply bool_decide_ext. rewrite elem_of_cons. intuition congruence.
Qed.

Lemma scanTypes_nullable ts :
  fst (scanTypes ts) = bool_decide ("null" ∈ ts).
Proof. unfold scanTypes. by rewrite scanTypes_fold. Qed.

Lemma filter_nonNull ts :
  filter (fun value => negb (String.eqb value "null")) ts
  = filter (fun value => value ≠ "null") ts.
Proof.
  induction ts as [|v ts IH]; [done|].
  rewrite !filter_cons, IH.
  destruct (String.eqb_spec v "null") as [->|Hne];
    repeat case_decide; simpl in *; try done; congruence.
Qed.

Lemma nonNull_shorter ts :
  "null" ∈ ts → length (filter (fun value => value ≠ "null") ts) < length ts.
Proof.
  induction ts as [|v ts IH]; [set_solver|].
  intros Hin. rewrite filter_cons. simpl.
  pose proof (length_filter (fun value : string => value ≠ "null") ts) as Hle.
  destruct (decide (v ≠ "null")) as [Hne|_]; simpl; [|lia].
  apply elem_of_cons in Hin as [Heq|Hin]; [congruence|].
  specialize (IH Hin). lia.
Qed.

(** The rule on a two-entry type array with "null" and one other entry. *)
Lemma convert31TypeArraysTo30_pair s t :
  t ≠ "null" →
  Type_ s = [t; "null"] ∨ Type_ s = ["null"; t] →
  convert31TypeArraysTo30 s = set_Nullable (Some true) (set_Type [t] s).
Proof.
  intros Hne [Hts|Hts]; unfold convert31TypeArraysTo30, scanTypes;
    rewrite Hts; simpl;
    destruct (String.eqb_spec t "null") as [|_]; [done| |done|]; reflexivity.
Qed.
End Nullability.

(** C2. The 3.1-to-3.0 nullability rule on a fragment with type array
    [ts]: when [ts] has exactly two entries of which one is "null" and the
    other, [t], is not, the type array becomes [[t]] and the nullable flag
    true; when [ts] has two or more entries other than "null", the type
    array is cleared and oneOf becomes one single-typed branch per such
    entry, in order, each with the nullable flag true if "null" was in [ts]
    and unset otherwise; when [ts] has at most one entry the fragment is
    unchanged. Nothing else in the fragment changes. *)
Theorem convert31TypeArraysTo30_cases (s : Schema) :
  (∀ t, t ≠ "null" →
        Type_ s = [t; "null"] ∨ Type_ s = ["null"; t] →
        convert31TypeArraysTo30 s = set_Nullable (Some true) (set_Type [t] s))
  ∧ (2 ≤ length (filter (fun value => value ≠ "null") (Type_ s)) →
     convert31TypeArraysTo30 s
     = set_Type []
         (set_OneOf
            ((fun value =>
                set_Nullable
                  (if bool_decide ("null" ∈ Type_ s) then Some true else None)
                  (set_Type [value] zeroSchema))
               <$> filter (fun value => value ≠ "null") (Type_ s))
            s))
  ∧ (length (Type_ s) ≤ 1 → convert31TypeArraysTo30 s = s).
Proof.
  split; [|split].
  - intros t Hne Hts. by apply convert31TypeArraysTo30_pair.
  - intros Hlen. unfold convert31TypeArraysTo30.
    pose proof (scanTypes_nullable (Type_ s)) as Hn.
    destruct (scanTypes (Type_ s)) as [nullable nonNullType]. simpl in Hn.
    pose proof (length_filter (fun value : string => value ≠ "null") (Type_ s)) as Hle.
    assert (nullable && (length (Type_ s) =? 2) = false) as ->.
    { apply andb_false_iff.
      destruct nullable; [right|by left].
      symmetry in Hn. apply bool_decide_eq_true_1 in Hn.
      apply nonNull_shorter in Hn. apply Nat.eqb_neq. lia. }
    assert ((2 <=? length (Type_ s)) = true) as -> by (apply Nat.leb_le; lia).
    rewrite filter_nonNull, <- Hn. f_equal. f_equal.
    apply list_fmap_ext. intros _ value _. by destruct nullable.
  - intros Hlen. unfold convert31TypeArraysTo30.
    destruct (scanTypes (Type_ s)) as [nullable nonNullType].
    assert ((length (Type_ s) =? 2) = false) as -> by (apply Nat.eqb_neq; lia).
    assert ((2 <=? length (Type_ s)) = false) as -> by (apply Nat.leb_gt; lia).
    by rewrite andb_false_r.
Qed.

Lemma convert31TypeArraysTo30_cases_witness :
  convert31TypeArraysTo30 (set_Type ["null"; "integer"] zeroSchema)
  = set_Nullable (Some true) (set_Type ["integer"] zeroSchema)
  ∧ OneOf (convert31TypeArraysTo30
             (set_Type ["string"; "null"; "integer"] zeroSchema))
    = [nullableString; set_Nullable (Some true) (set_Type ["integer"] zeroSchema)]
  ∧ convert31TypeArraysTo30 (set_Type ["null"] zeroSchema)
    = set_Type ["null"] zeroSchema.
Proof.
  split; [|split].
  - apply (proj1 (convert31TypeArraysTo30_cases
                    (set_Type ["null"; "integer"] zeroSchema)) "integer");
      [discriminate | right; reflexivity].
  - rewrite (proj1 (proj2 (convert31TypeArraysTo30_cases
                    (set_Type ["string"; "null"; "integer"] zeroSchema))));
      [reflexivity | vm_compute; lia].
  - apply (proj2 (proj2 (convert31TypeArraysTo30_cases
                    (set_Type ["null"] zeroSchema)))).
    simpl. lia.
Defined.

(** Type arrays outside the three cases: two "null" entries take the first
    branch, with no other entry to keep, and a single entry other than
    "null" among three takes the second. *)
Example convert31TypeArraysTo30_two_nulls :
  convert31TypeArraysTo30 (set_Type ["null"; "null"] zeroSchema)
  = set_Nullable (Some true) (set_Type [EmptyString] zeroSchema).
Proof. reflexivity. Qed.

Example convert31TypeArraysTo30_one_of_three :
  convert31TypeArraysTo30 (set_Type ["null"; "string"; "null"] zeroSchema)
  = set_OneOf [nullableString] zeroSchema.
Proof. reflexivity. Qed.

(** C3 as stated fails: the round trip does not restore a type array that
    lists "null" first. *)
Lemma nullable_roundtrip_order_counterexample :
  ¬ (∀ (s : Schema) (t : string),
       t ≠ "null" →
       Type_ s = [t; "null"] ∨ Type_ s = ["null"; t] →
       Nullable s = None →
       let s' := convert30NullablesTo31TypeArrays (convert31TypeArraysTo30 s) in
       Type_ s' = Type_ s ∧ Nullable s' = Nullable s).
Proof.
  intros H.
  destruct (H (set_Type ["null"; "string"] zeroSchema) "string") as [Hty _];
    [discriminate | by right | reflexivity |].
  vm_compute in Hty. discriminate.
Qed.

(** C3, amended. For a fragment whose type array holds "null" and one other
    entry [t], in either order, and whose nullable flag is unset, the
    3.1-to-3.0 rule followed by the 3.0-to-3.1 rule leaves the nullable
    flag unset and yields the type array [[t; "null"]], all other fields
    being untouched; the fragment is reproduced exactly when "null" was the
    second entry. *)
Theorem nullable_roundtrip_null_last (s : Schema) (t : string) :
  t ≠ "null" →
  Type_ s = [t; "null"] ∨ Type_ s = ["null"; t] →
  Nullable s = None →
  let s' := convert30NullablesTo31TypeArrays (convert31TypeArraysTo30 s) in
  s' = set_Type [t; "null"] s
  ∧ (Type_ s = [t; "null"] → s' = s).
Proof.
  intros Hne Hts Hnull s'. subst s'.
  rewrite (convert31TypeArraysTo30_pair s t Hne Hts).
  assert (convert30NullablesTo31TypeArrays
            (set_Nullable (Some true) (set_Type [t] s))
          = set_Type [t; "null"] s) as ->.
  { destruct s; simpl in *; subst. reflexivity. }
  split; [done|].
  intros Hlast. destruct s; simpl in *; subst. reflexivity.
Qed.

Lemma nullable_roundtrip_null_last_witness :
  convert30NullablesTo31TypeArrays
    (convert31TypeArraysTo30 (set_Type ["string"; "null"] zeroSchema))
  = set_Type ["string"; "null"] zeroSchema.
Proof.
  apply (nullable_roundtrip_null_last
           (set_Type ["string"; "null"] zeroSchema) "string");
    [discriminate | left; reflexivity | reflexivity | reflexivity].
Defined.

(** ** Binary string encoding *)

Lemma soleTypeIsString_spec (s : Schema) :
  soleTypeIsString s = true ↔ Type_ s = ["string"].
Proof.
  unfold soleTypeIsString. destruct (Type_ s) as [|t [|? ?]]; try done.
  destruct (String.eqb_spec t "string"); split; congruence.
Qed.

(** The three formats that the rule maps to a content marker. *)
Lemma convert30FormatsTo31ContentFields_binary (s : Schema) :
  Type_ s = ["string"] →
  Format s = "binary" ∨ Format s = "byte" →
  convert30FormatsTo31ContentFields s
  = set_Format EmptyString (setContentMediaType "base64" s).
Proof.
  intros Hty Hfmt. unfold convert30FormatsTo31ContentFields.
  rewrite (proj2 (soleTypeIsString_spec s) Hty).
  destruct Hfmt as [-> | ->]; reflexivity.
Qed.

Lemma convert30FormatsTo31ContentFields_base64 (s : Schema) :
  Type_ s = ["string"] →
  Format s = "base64" →
  convert30FormatsTo31ContentFields s
  = set_Format EmptyString (setContentEncoding "base64" s).
Proof.
  intros Hty Hfmt. unfold convert30FormatsTo31ContentFields.
  rewrite (proj2 (soleTypeIsString_spec s) Hty), Hfmt. reflexivity.
Qed.

(** Outside its guard the rule does nothing. *)
Lemma convert30FormatsTo31ContentFields_guard (s : Schema) :
  Type_ s ≠ ["string"] ∨ Format s = EmptyString →
  convert30FormatsTo31ContentFields s = s.
Proof.
  intros H. unfold convert30FormatsTo31ContentFields.
  destruct (soleTypeIsString s) eqn:Hsole; [|done].
  apply soleTypeIsString_spec in Hsole.
  destruct H as [H | ->]; [done | reflexivity].
Qed.

(** Inside its guard the rule clears the format whatever it is, and sets no
    marker unless the format is one of the three above. *)
Lemma convert30FormatsTo31ContentFields_other (s : Schema) :
  Type_ s = ["string"] →
  Format s ≠ EmptyString →
  Format s ≠ "binary" → Format s ≠ "byte" → Format s ≠ "base64" →
  convert30FormatsTo31ContentFields s = set_Format EmptyString s.
Proof.
  intros Hty H0 H1 H2 H3. unfold convert30FormatsTo31ContentFields.
  rewrite (proj2 (soleTypeIsString_spec s) Hty).
  destruct (Format s) as [|a f] eqn:Hf; [done|]. cbn [String.length Nat.ltb Nat.leb andb].
  rewrite <- Hf in *.
  rewrite (proj2 (String.eqb_neq _ _) H1), (proj2 (String.eqb_neq _ _) H2),
    (proj2 (String.eqb_neq _ _) H3). reflexivity.
Qed.

(** C4. On [{type: [string], format: date-time}] the 3.0-to-3.1 format rule
    sets neither content marker and still clears the format: the fragment
    is not left unchanged. *)
Theorem convert30FormatsTo31ContentFields_drops_date_time :
  soleTypeIsString dateTimeString = true
  ∧ Format dateTimeString = "date-time"
  ∧ convert30FormatsTo31ContentFields dateTimeString
    = set_Format EmptyString dateTimeString
  ∧ Format (convert30FormatsTo31ContentFields dateTimeString) = EmptyString
  ∧ GoLow (convert30FormatsTo31ContentFields dateTimeString)
    = GoLow dateTimeString
  ∧ convert30FormatsTo31ContentFields dateTimeString ≠ dateTimeString.
Proof.
  repeat split; try reflexivity.
  intros H. apply (f_equal Format) in H. vm_compute in H. discriminate.
Qed.

(** ** Numeric bounds *)

Section Bounds.
Implicit Types (p : BoundPair) (s : Schema).

Lemma minimumPair_set_MinimumPair p s : minimumPair (set_MinimumPair p s) = p.
Proof. by destruct p. Qed.

Lemma maximumPair_set_MaximumPair p s : maximumPair (set_MaximumPair p s) = p.
Proof. by destruct p. Qed.

Lemma minimumPair_set_MaximumPair p s :
  minimumPair (set_MaximumPair p s) = minimumPair s.
Proof. reflexivity. Qed.

Lemma maximumPair_set_MinimumPair p s :
  maximumPair (set_MinimumPair p s) = maximumPair s.
Proof. reflexivity. Qed.

Lemma minimumPair_convert30 s :
  minimumPair (convert30MinMaxTo31 s)
  = convert30ExclusiveBoundTo31 (minimumPair s).
Proof.
  unfold convert30MinMaxTo31.
  by rewrite minimumPair_set_MaximumPair, minimumPair_set_MinimumPair.
Qed.

Lemma maximumPair_convert30 s :
  maximumPair (convert30MinMaxTo31 s)
  = convert30ExclusiveBoundTo31 (maximumPair s).
Proof.
  unfold convert30MinMaxTo31.
  by rewrite maximumPair_set_MaximumPair, maximumPair_set_MinimumPair.
Qed.

Lemma minimumPair_convert31 s :
  minimumPair (convert31MinMaxTo30 s)
  = convert31ExclusiveBoundTo30 (minimumPair s).
Proof.
  unfold convert31MinMaxTo30.
  by rewrite minimumPair_set_MaximumPair, minimumPair_set_MinimumPair.
Qed.

Lemma maximumPair_convert31 s :
  maximumPair (convert31MinMaxTo30 s)
  = convert31ExclusiveBoundTo30 (maximumPair s).
Proof.
  unfold convert31MinMaxTo30.
  by rewrite maximumPair_set_MaximumPair, maximumPair_set_MinimumPair.
Qed.

(** Case analysis on a bound pair: the bound, the indicator and its tag. *)
Ltac bound_cases p :=
  destruct p as [[b|] [[n a v]|]]; try reflexivity;
  unfold hasBothForms, convert30ExclusiveBoundTo31, convert31ExclusiveBoundTo30,
    effectiveBounds, DynamicValue.IsA, DynamicValue.IsB in *;
  cbn [DynamicValue.N DynamicValue.A DynamicValue.B] in *;
  destruct (n =? 0)%Z eqn:E0; destruct (n =? 1)%Z eqn:E1;
  try (apply Z.eqb_eq in E0; subst n); try (apply Z.eqb_eq in E1; subst n);
  try discriminate; destruct a;
  repeat (cbn -[Z.eqb] in *; rewrite ?E0, ?E1 in *);
  try reflexivity; try discriminate.

Lemma upgrade_after_downgrade_pair p :
  hasBothForms p = false →
  effectiveBounds (convert30ExclusiveBoundTo31 (convert31ExclusiveBoundTo30 p))
  = effectiveBounds p.
Proof. intros H. bound_cases p. Qed.

Lemma downgrade_after_upgrade_pair p :
  hasBothForms p = false →
  effectiveBounds (convert31ExclusiveBoundTo30 (convert30ExclusiveBoundTo31 p))
  = effectiveBounds p.
Proof. intros H. bound_cases p. Qed.

(** With both forms present the round trip drops the separate bound. *)
Lemma upgrade_after_downgrade_both_forms p :
  hasBothForms p = true →
  effectiveBounds (convert30ExclusiveBoundTo31 (convert31ExclusiveBoundTo30 p))
  ≠ effectiveBounds p.
Proof.
  destruct p as [[b|] [[n a v]|]]; try discriminate.
  unfold hasBothForms, DynamicValue.IsB. cbn [DynamicValue.N].
  intros Hn. apply Z.eqb_eq in Hn. subst n. discriminate.
Qed.
End Bounds.

(** C7 as stated fails: a fragment with both a separate minimum and a
    numeric exclusive minimum loses the separate minimum in the round trip.
    15 is below the minimum 20 of [bothMinimums] and within the limits of
    what comes back. *)
Lemma bound_roundtrip_counterexample :
  ¬ (∀ s : Schema,
       is_Some (Minimum s) → is_Some (ExclusiveMinimum s) →
       effectiveBounds (minimumPair (convert30MinMaxTo31 (convert31MinMaxTo30 s)))
       = effectiveBounds (minimumPair s)
       ∧ effectiveBounds (maximumPair (convert30MinMaxTo31 (convert31MinMaxTo30 s)))
         = effectiveBounds (maximumPair s)
       ∧ effectiveBounds (minimumPair (convert31MinMaxTo30 (convert30MinMaxTo31 s)))
         = effectiveBounds (minimumPair s)
       ∧ effectiveBounds (maximumPair (convert31MinMaxTo30 (convert30MinMaxTo31 s)))
         = effectiveBounds (maximumPair s)).
Proof.
  intros H. destruct (H bothMinimums) as [Hmin _]; [by eexists..|].
  apply (f_equal (fun limits => aboveLimits limits 15%float)) in Hmin.
  vm_compute in Hmin. discriminate.
Qed.

(** C7, amended. For a fragment in which no bound has both a separate value
    and an indicator in numeric form, the 3.1-to-3.0 rule followed by the
    3.0-to-3.1 rule, and the two rules in the other order, each leave the
    limits of the minimum and of the maximum as they were: the same values,
    each with the same inclusive or exclusive reading. *)
Theorem bound_roundtrip_preserves_limits (s : Schema) :
  hasBothForms (minimumPair s) = false →
  hasBothForms (maximumPair s) = false →
  effectiveBounds (minimumPair (convert30MinMaxTo31 (convert31MinMaxTo30 s)))
  = effectiveBounds (minimumPair s)
  ∧ effectiveBounds (maximumPair (convert30MinMaxTo31 (convert31MinMaxTo30 s)))
    = effectiveBounds (maximumPair s)
  ∧ effectiveBounds (minimumPair (convert31MinMaxTo30 (convert30MinMaxTo31 s)))
    = effectiveBounds (minimumPair s)
  ∧ effectiveBounds (maximumPair (convert31MinMaxTo30 (convert30MinMaxTo31 s)))
    = effectiveBounds (maximumPair s).
Proof.
  intros Hmin Hmax.
  rewrite !minimumPair_convert30, !maximumPair_convert30,
    !minimumPair_convert31, !maximumPair_convert31,
    !minimumPair_convert30, !maximumPair_convert30.
  auto using upgrade_after_downgrade_pair, downgrade_after_upgrade_pair.
Qed.

Lemma bound_roundtrip_preserves_limits_witness :
  let s := set_MinimumPair
             (Some 10%float, Some (DynamicValue.mk 0%Z true 0%float))
             (set_MaximumPair
                (None, Some (DynamicValue.mk 1%Z false 99%float)) zeroSchema) in
  effectiveBounds (minimumPair (convert31MinMaxTo30 (convert30MinMaxTo31 s)))
  = [(10%float, true)]
  ∧ effectiveBounds (maximumPair (convert30MinMaxTo31 (convert31MinMaxTo30 s)))
    = [(99%float, true)].
Proof.
  intros s.
  destruct (bound_roundtrip_preserves_limits s) as (_ & Hmax & Hmin & _);
    [reflexivity | reflexivity |].
  split; [rewrite Hmin | rewrite Hmax]; reflexivity.
Defined.

(** ** The schema visitor *)

Section VisitorFacts.
Lemma forEachSchema_recording (l visited : list Schema) :
  forEachSchema recordingCallback l visited = (l, visited ++ l).
Proof.
  revert visited. induction l as [|x l IH]; intros visited; simpl.
  - by rewrite app_nil_r.
  - rewrite IH. by rewrite <- app_assoc.
Qed.

Lemma forEachProperty_recording (ps : list (string * Schema))
    (visited : list Schema) :
  forEachProperty recordingCallback ps visited = (ps, visited ++ ps.*2).
Proof.
  revert visited. induction ps as [|[name x] ps IH]; intros visited; simpl.
  - by rewrite app_nil_r.
  - rewrite IH. by rewrite <- app_assoc.
Qed.

(** A nil schema is skipped, whatever the callback. *)
Lemma updateSchemaAndReferencedSchema_nil {St} (callback : @Callback St) st :
  updateSchemaAndReferencedSchema None callback st = (None, st).
Proof. reflexivity. Qed.

(** The callback is handed the sub-schemas one level down, in the order
    of the five loops, and then the schema itself; nothing else. *)
Lemma updateSchemaAndReferencedSchema_calls (s : Schema)
    (visited : list Schema) :
  updateSchemaAndReferencedSchema (Some s) recordingCallback visited
  = (Some s, visited ++ children s ++ [s]).
Proof.
  unfold updateSchemaAndReferencedSchema, children.
  destruct s as [ty nu mi ma emi ema fo props items allOf oneOf anyOf lo].
  cbn [Properties Items AllOf OneOf AnyOf].
  destruct props as [ps|]; [rewrite forEachProperty_recording|];
    (destruct items as [[n [item|] b]|];
     unfold DynamicValue.IsA; cbn [DynamicValue.N DynamicValue.A];
     try destruct (n =? 0)%Z);
    unfold recordingCallback at 1;
    rewrite !forEachSchema_recording; unfold recordingCallback, set_children;
    cbn [Type_ Nullable Minimum Maximum ExclusiveMinimum ExclusiveMaximum
         Format GoLow DynamicValue.N DynamicValue.B];
    rewrite <- ?app_assoc, ?app_nil_r; reflexivity.
Qed.
End VisitorFacts.

(** C1. On an object whose property holds an object whose property holds
    [{type: [string], nullable: true}], the visitor hands the callback the
    middle object and then the outer one, and never the innermost fragment:
    run with the 3.0-to-3.1 nullability rule it returns the tree as it was,
    the innermost fragment still carrying its nullable flag. *)
Theorem updateSchemaAndReferencedSchema_skips_grandchildren :
  children outerObject = [middleObject]
  ∧ children middleObject = [nullableString]
  ∧ snd (updateSchemaAndReferencedSchema (Some outerObject) recordingCallback [])
    = [middleObject; outerObject]
  ∧ fst (updateSchemaAndReferencedSchema (Some outerObject)
           (pureCallback convert30NullablesTo31TypeArrays) tt)
    = Some outerObject
  ∧ convert30NullablesTo31TypeArrays nullableString
    = set_Type ["string"; "null"] zeroSchema.
Proof. repeat split. Qed.

(** ** The Swagger 2.0 post-processing pass *)

Section SwaggerPass.
Import openapi2.
Implicit Types (op : Operation.t) (path : PathItem.t) (m : Method).

Lemma operationOf_onOperations m f path :
  operationOf m (onOperations f path) = f (operationOf m path).
Proof. by destruct m. Qed.

Lemma lookup_addDefaultErrorResponses (doc : T.t) (name : string) :
  T.Paths (addDefaultErrorResponses doc) !! name
  = (fun path =>
       onOperations addDefaultErrorResponseToOperation
         (onOperations deduplicateTags
            (onOperations copyDescriptionToSummary path)))
      <$> T.Paths doc !! name.
Proof. unfold addDefaultErrorResponses. cbn [T.Paths]. by rewrite lookup_fmap. Qed.

Lemma append_empty_r (s : string) : s +:+ EmptyString = s.
Proof.
  induction s as [|a s IH]; [done|].
  change (String a (s +:+ EmptyString) = String a s). by rewrite IH.
Qed.

(** What [copyDescriptionToSummary] does to an operation with an empty
    summary and a description. *)
Lemma copyDescriptionToSummary_fills op :
  Operation.Summary op = EmptyString →
  Operation.Description op ≠ EmptyString →
  copyDescriptionToSummary (Some op)
  = Some (set_Description (Operation.Description op +:+ grpcInfoOf op)
            (set_Summary (Operation.Description op) op)).
Proof.
  intros Hsum Hdesc. unfold copyDescriptionToSummary.
  rewrite Hsum, (proj2 (String.eqb_neq _ _) Hdesc).
  cbn [String.eqb andb negb set_Summary Operation.Description].
  rewrite (proj2 (String.eqb_neq _ _) Hdesc). cbn [negb].
  destruct (String.eqb_spec (grpcInfoOf op) EmptyString) as [->|_];
    cbn [negb]; [|done].
  rewrite append_empty_r. destruct op; simpl in *; by subst.
Qed.

Lemma deduplicateTags_fields (o : option Operation.t) :
  Operation.Summary <$> deduplicateTags o = Operation.Summary <$> o
  ∧ Operation.Description <$> deduplicateTags o = Operation.Description <$> o
  ∧ Operation.Responses <$> deduplicateTags o = Operation.Responses <$> o.
Proof.
  destruct o as [op|]; [|done]. unfold deduplicateTags.
  by destruct (length (Operation.Tags op) =? 0).
Qed.

Lemma addDefaultErrorResponseToOperation_fields (o : option Operation.t) :
  Operation.Summary <$> addDefaultErrorResponseToOperation o
  = Operation.Summary <$> o
  ∧ Operation.Description <$> addDefaultErrorResponseToOperation o
    = Operation.Description <$> o.
Proof. by destruct o. Qed.

Lemma addDefaultErrorResponseToOperation_default (o : option Operation.t) op' :
  addDefaultErrorResponseToOperation o = Some op' →
  ∃ rs, Operation.Responses op' = Some rs
        ∧ rs !! "default" = Some defaultErrorResponse.
Proof.
  destruct o as [op|]; [|done]. intros [= <-]. eexists. split; [done|].
  apply lookup_insert_eq.
Qed.

Lemma operations_kept (o : option Operation.t) :
  is_Some (addDefaultErrorResponseToOperation
             (deduplicateTags (copyDescriptionToSummary o)))
  ↔ is_Some o.
Proof.
  destruct o as [op|]; simpl; [|done].
  destruct (length _ =? 0); simpl; split; eauto.
Qed.

Lemma addIfAbsent_lookup (name : string) (ref : SchemaRef)
    (defs : gmap string SchemaRef) (k : string) :
  addIfAbsent name ref defs !! k
  = if decide (k = name) then Some (default ref (defs !! name)) else defs !! k.
Proof.
  unfold addIfAbsent. destruct (defs !! name) as [old|] eqn:Hold.
  - case_decide; by subst.
  - case_decide; subst; [apply lookup_insert_eq | by apply lookup_insert_ne].
Qed.

(** A key that a map holds occurs once among its entries. *)
Lemma map_key_once {V} (defs : gmap string V) (k : string) (v : V) :
  defs !! k = Some v →
  length (filter (fun kv => kv.1 = k) (map_to_list defs)) = 1.
Proof.
  intros Hk. rewrite <- (map_to_list_delete defs k v Hk).
  rewrite filter_cons_True by done. simpl. f_equal.
  destruct (filter _ _) as [|[k' v'] l] eqn:Hf; [done|]. exfalso.
  assert ((k', v') ∈ filter (fun kv : string * V => kv.1 = k)
                       (map_to_list (delete k defs))) as Hin
    by (rewrite Hf; left).
  apply list_elem_of_filter in Hin as [Heq Hin]. simpl in Heq. subst k'.
  apply elem_of_map_to_list in Hin. by rewrite lookup_delete_eq in Hin.
Qed.

(** C5. After [addDefaultErrorResponses], the document has the same
    operations as before, under the same paths and methods, and each of
    them, for all seven methods, has under "default" the response that
    refers to "#/definitions/rpcStatus", whatever was there before. The
    definitions "googleprotobufAny" and "rpcStatus" are present, each as
    one entry: the one that the document already had, or else the
    injected one; every other definition is as it was. *)
Theorem addDefaultErrorResponses_default_response (doc : T.t) :
  let doc' := addDefaultErrorResponses doc in
  let defs := default ∅ (T.Definitions doc) in
  (∀ name m,
     is_Some (T.Paths doc' !! name ≫= operationOf m)
     ↔ is_Some (T.Paths doc !! name ≫= operationOf m))
  ∧ (∀ name path m op,
       T.Paths doc' !! name = Some path →
       operationOf m path = Some op →
       ∃ rs, Operation.Responses op = Some rs
             ∧ rs !! "default" = Some defaultErrorResponse)
  ∧ Response.Schema defaultErrorResponse
    = Some (mkSchemaRef "#/definitions/rpcStatus" None)
  ∧ ∃ defs',
      T.Definitions doc' = Some defs'
      ∧ defs' !! "googleprotobufAny"
        = Some (default googleprotobufAny (defs !! "googleprotobufAny"))
      ∧ defs' !! "rpcStatus" = Some (default rpcStatus (defs !! "rpcStatus"))
      ∧ length (filter (fun kv => kv.1 = "googleprotobufAny")
                  (map_to_list defs')) = 1
      ∧ length (filter (fun kv => kv.1 = "rpcStatus") (map_to_list defs')) = 1
      ∧ ∀ k, k ≠ "googleprotobufAny" → k ≠ "rpcStatus" →
             defs' !! k = defs !! k.
Proof.
  intros doc' defs. subst doc'. repeat split.
  - rewrite lookup_addDefaultErrorResponses.
    destruct (T.Paths doc !! name) as [path|]; simpl; [|by intros []].
    rewrite !operationOf_onOperations. apply operations_kept.
  - rewrite lookup_addDefaultErrorResponses.
    destruct (T.Paths doc !! name) as [path|]; simpl; [|by intros []].
    rewrite !operationOf_onOperations. apply operations_kept.
  - intros name path m op Hpath Hop.
    rewrite lookup_addDefaultErrorResponses in Hpath.
    destruct (T.Paths doc !! name) as [path0|]; simplify_eq/=.
    rewrite !operationOf_onOperations in Hop.
    by eapply addDefaultErrorResponseToOperation_default.
  - assert (∀ d : gmap string SchemaRef,
              (addIfAbsent "rpcStatus" rpcStatus
                 (addIfAbsent "googleprotobufAny" googleprotobufAny d))
              !! "googleprotobufAny"
              = Some (default googleprotobufAny (d !! "googleprotobufAny")))
      as Hany by (intros d; by rewrite !addIfAbsent_lookup).
    assert (∀ d : gmap string SchemaRef,
              (addIfAbsent "rpcStatus" rpcStatus
                 (addIfAbsent "googleprotobufAny" googleprotobufAny d))
              !! "rpcStatus"
              = Some (default rpcStatus (d !! "rpcStatus")))
      as Hrpc by (intros d; by rewrite !addIfAbsent_lookup).
    eexists. split; [reflexivity|].
    fold defs. split; [apply Hany|]. split; [apply Hrpc|].
    split; [by eapply map_key_once|]. split; [by eapply map_key_once|].
    intros k Hk1 Hk2. rewrite !addIfAbsent_lookup. by repeat case_decide.
Qed.

Lemma addDefaultErrorResponses_default_response_witness :
  ∃ rs, Operation.Responses
          (Operation.mk "List pets"
             ("List pets" +:+ grpcInfoOf listPets) ["PetService"]
             "PetService_List"
             (Some (<["default" := defaultErrorResponse]>
                    (<["200" := Response.mk "ok" None]> ∅))))
        = Some rs
        ∧ rs !! "default" = Some defaultErrorResponse.
Proof.
  apply (proj1 (proj2 (addDefaultErrorResponses_default_response petsDoc))
           "/pets"
           (PathItem.mk None
              (Some (Operation.mk "List pets"
                       ("List pets" +:+ grpcInfoOf listPets) ["PetService"]
                       "PetService_List"
                       (Some (<["default" := defaultErrorResponse]>
                              (<["200" := Response.mk "ok" None]> ∅)))))
              None None None None None)
           GET).
  - vm_compute. reflexivity.
  - reflexivity.
Defined.

(** C10. An operation of the document whose summary is empty and whose
    description is not comes out of [addDefaultErrorResponses] with its
    old description as summary, while its description is the old one
    followed by the appended note: the note is not part of the summary. *)
Theorem copyDescriptionToSummary_summary_before_note
    (doc : T.t) (name : string) path m op :
  T.Paths doc !! name = Some path →
  operationOf m path = Some op →
  Operation.Summary op = EmptyString →
  Operation.Description op ≠ EmptyString →
  copyDescriptionToSummary (Some op)
  = Some (set_Description (Operation.Description op +:+ grpcInfoOf op)
            (set_Summary (Operation.Description op) op))
  ∧ ∃ path' op',
      T.Paths (addDefaultErrorResponses doc) !! name = Some path'
      ∧ operationOf m path' = Some op'
      ∧ Operation.Summary op' = Operation.Description op
      ∧ Operation.Description op'
        = Operation.Description op +:+ grpcInfoOf op.
Proof.
  intros Hpath Hop Hsum Hdesc.
  pose proof (copyDescriptionToSummary_fills op Hsum Hdesc) as Hcopy.
  split; [done|].
  rewrite lookup_addDefaultErrorResponses, Hpath. cbn [fmap option_fmap option_map].
  destruct (deduplicateTags_fields
              (Some (set_Description
                       (Operation.Description op +:+ grpcInfoOf op)
                       (set_Summary (Operation.Description op) op))))
    as (Hs1 & Hd1 & _).
  destruct (deduplicateTags _) as [op1|] eqn:Hdedup; [|done].
  cbn [fmap option_fmap option_map set_Description set_Summary
       Operation.Summary Operation.Description] in Hs1, Hd1.
  injection Hs1 as Hs1. injection Hd1 as Hd1.
  eexists. exists (set_Responses
                     (Some (<["default" := defaultErrorResponse]>
                            (default ∅ (Operation.Responses op1)))) op1).
  split; [reflexivity|].
  rewrite !operationOf_onOperations, Hop, Hcopy, Hdedup.
  split; [|by split].
  unfold addDefaultErrorResponseToOperation.
  by destruct (Operation.Responses op1).
Qed.

Lemma copyDescriptionToSummary_summary_before_note_witness :
  copyDescriptionToSummary (Some listPets)
  = Some (Operation.mk "List pets"
            ("List pets" +:+ nl +:+ nl +:+ "gRPC客户端名称：PetService"
               +:+ nl +:+ "接口方法名称：List")
            ["PetService"; "PetService"] "PetService_List"
            (Operation.Responses listPets)).
Proof.
  apply (copyDescriptionToSummary_summary_before_note petsDoc "/pets"
           petsPath GET listPets);
    [vm_compute; reflexivity | reflexivity | reflexivity | discriminate].
Defined.
End SwaggerPass.

(** ** The conversion orchestrator *)

Section OrchestratorFacts.
Variable backend : Backend.
Implicit Types (data : bytes) (v : SpecVersion) (fuel : nat).

Lemma detectVersion_None (marker : string) :
  marker ∉ ["2.0"; "3.0.0"; "3.0.1"; "3.0.2"; "3.0.3"; "3.0.4";
            "3.1.0"; "3.1.1"] →
  detectVersion marker = None.
Proof.
  intros Hnot. unfold detectVersion.
  repeat match goal with
         | |- context [String.eqb marker ?lit] =>
             destruct (String.eqb_spec marker lit) as [->|_];
             [exfalso; apply Hnot; set_solver|]
         end.
  reflexivity.
Qed.

(** The loop does not run when the two versions are the same. *)
Lemma convertLoop_same fuel data v :
  convertLoop backend fuel data v v = Some ([], Converted data).
Proof. destruct fuel; simpl; by rewrite Z.eqb_refl. Qed.

(** Each iteration moves the input version one place, towards the
    output version. *)
Lemma loopBody_towards data v out :
  v ≠ out →
  let next := snd (loopBody backend data v out) in
  Z.abs (SpecVersion_value next - SpecVersion_value v) = 1%Z
  ∧ Z.abs (SpecVersion_value out - SpecVersion_value next)
    = (Z.abs (SpecVersion_value out - SpecVersion_value v) - 1)%Z.
Proof. by destruct v, out. Qed.

(** C6. When the version detected in the document is the requested one,
    [convertDocument] takes no step and returns the document bytes it was
    given, with no error, however many iterations the loop is allowed. *)
Theorem convertDocument_same_version_identity fuel data
    (basicDoc : BasicDoc.t) v :
  yamlUnmarshal backend data = Some basicDoc →
  detectVersion (versionMarker basicDoc) = Some v →
  convertDocument backend fuel data v = Some ([], Converted data).
Proof.
  intros Hparse Hdetect. unfold convertDocument.
  rewrite Hparse, Hdetect. apply convertLoop_same.
Qed.

(** C8. When the version string of the document, taken from its [openapi]
    field or else from its [swagger] field, is none of the eight
    recognised ones, [convertDocument] takes no step and returns an error
    whose message ends with that string, and no document. *)
Theorem convertDocument_unsupported_version fuel data
    (basicDoc : BasicDoc.t) out :
  yamlUnmarshal backend data = Some basicDoc →
  versionMarker basicDoc
    ∉ ["2.0"; "3.0.0"; "3.0.1"; "3.0.2"; "3.0.3"; "3.0.4"; "3.1.0"; "3.1.1"] →
  convertDocument backend fuel data out
  = Some ([], Failed ("Unsuppoted input document OpenAPI version: "
                        +:+ versionMarker basicDoc))
  ∧ versionMarker basicDoc
    = (if decide (BasicDoc.OpenAPI basicDoc = EmptyString)
       then BasicDoc.Swagger basicDoc else BasicDoc.OpenAPI basicDoc).
Proof.
  intros Hparse Hnot. split.
  - unfold convertDocument. rewrite Hparse.
    by rewrite (detectVersion_None _ Hnot).
  - unfold versionMarker. by destruct (BasicDoc.OpenAPI basicDoc).
Qed.

(** C9. With two iterations allowed, or more, the loop of
    [convertDocument] always comes to an end: it returns after at most two
    steps, and every step goes from a version to the one next to it that
    is one place closer to the requested version. *)
Theorem convertDocument_at_most_two_steps fuel data out :
  2 ≤ fuel →
  ∃ steps r,
    convertDocument backend fuel data out = Some (steps, r)
    ∧ length steps ≤ 2
    ∧ Forall (fun step : Step =>
                Z.abs (SpecVersion_value step.2 - SpecVersion_value step.1) = 1%Z
                ∧ Z.abs (SpecVersion_value out - SpecVersion_value step.2)
                  = (Z.abs (SpecVersion_value out - SpecVersion_value step.1)
                     - 1)%Z)
             steps.
Proof.
  intros Hfuel. destruct fuel as [|[|fuel]]; [lia|lia|].
  unfold convertDocument.
  destruct (yamlUnmarshal backend data) as [basicDoc|];
    [|by eexists _, _; repeat split; [simpl; lia | constructor]].
  destruct (detectVersion (versionMarker basicDoc)) as [v|];
    [|by eexists _, _; repeat split; [simpl; lia | constructor]].
  destruct v, out; cbn -[Z.abs Z.sub];
    repeat match goal with
           | |- context [match ?c backend ?d with _ => _ end] =>
               destruct (c backend d); cbn -[Z.abs Z.sub]
           end;
    try destruct fuel; cbn -[Z.abs Z.sub];
    eexists _, _; (split; [reflexivity|]); (split; [simpl; lia|]);
    repeat constructor.
Qed.
End OrchestratorFacts.

Lemma convertDocument_same_version_identity_witness :
  convertDocument markerBackend 0 [Byte.x31] OpenAPI31
  = Some ([], Converted [Byte.x31]).
Proof.
  apply (convertDocument_same_version_identity markerBackend 0 [Byte.x31]
           (BasicDoc.mk "3.1.0" EmptyString) OpenAPI31); reflexivity.
Defined.

Lemma convertDocument_unsupported_version_witness :
  convertDocument markerBackend 2 [Byte.x34] Swagger
  = Some ([], Failed "Unsuppoted input document OpenAPI version: 4.0.0").
Proof.
  apply (convertDocument_unsupported_version markerBackend 2 [Byte.x34]
           (BasicDoc.mk "4.0.0" EmptyString) Swagger); [reflexivity|].
  vm_compute. intros H.
  repeat (apply elem_of_cons in H as [H|H]; [discriminate|]).
  by apply elem_of_nil in H.
Defined.

Lemma convertDocument_at_most_two_steps_witness :
  ∃ steps r,
    convertDocument markerBackend 2 [Byte.x20] OpenAPI31 = Some (steps, r)
    ∧ length steps ≤ 2
    ∧ Forall (fun step : Step =>
                Z.abs (SpecVersion_value step.2 - SpecVersion_value step.1) = 1%Z
                ∧ Z.abs (SpecVersion_value OpenAPI31 - SpecVersion_value step.2)
                  = (Z.abs (SpecVersion_value OpenAPI31
                            - SpecVersion_value step.1) - 1)%Z)
             steps.
Proof.
  apply (convertDocument_at_most_two_steps markerBackend 2 [Byte.x20] OpenAPI31).
  lia.
Defined.

(** The run of the last witness: two upgrades, in order. *)
Example convertDocument_swagger_to_31 :
  convertDocument markerBackend 2 [Byte.x20] OpenAPI31
  = Some ([(Swagger, OpenAPI30); (OpenAPI30, OpenAPI31)], Converted [Byte.x31]).
Proof. reflexivity. Qed.

(** * Further properties *)

#[local] Set Warnings "-clear-no-such-hyp".

(** ** The rules on single fragments *)

Lemma convert31TypeArraysTo30_short (s : Schema) :
  length (Type_ s) ≤ 1 → convert31TypeArraysTo30 s = s.
Proof.
  intros Hlen. unfold convert31TypeArraysTo30.
  destruct (scanTypes (Type_ s)) as [nullable nonNullType].
  assert ((length (Type_ s) =? 2) = false) as -> by (apply Nat.eqb_neq; lia).
  assert ((2 <=? length (Type_ s)) = false) as -> by (apply Nat.leb_gt; lia).
  by rewrite andb_false_r.
Qed.

(** The 3.0-to-3.1 nullability rule followed by the 3.1-to-3.0 rule, on a
    fragment with one type other than "null" and a nullable flag: a true
    flag comes back with the fragment exactly as it was, a false flag comes
    back unset. *)
Theorem nullable_upgrade_then_downgrade (s : Schema) (t : string) (b : bool) :
  Type_ s = [t] → t ≠ "null" → Nullable s = Some b →
  convert31TypeArraysTo30 (convert30NullablesTo31TypeArrays s)
  = set_Nullable (if b then Some true else None) s
  ∧ (b = true →
     convert31TypeArraysTo30 (convert30NullablesTo31TypeArrays s) = s).
Proof.
  intros Hty Hne Hnu.
  assert (convert31TypeArraysTo30 (convert30NullablesTo31TypeArrays s)
          = set_Nullable (if b then Some true else None) s) as Heq.
  { unfold convert30NullablesTo31TypeArrays. rewrite Hnu. destruct b.
    - rewrite (convert31TypeArraysTo30_pair _ t Hne);
        [|left; simpl; by rewrite Hty].
      destruct s; simpl in *; by subst.
    - apply convert31TypeArraysTo30_short. simpl. rewrite Hty. simpl. lia. }
  split; [done|]. intros ->. rewrite Heq. destruct s; simpl in *; by subst.
Qed.

Lemma nullable_upgrade_then_downgrade_witness :
  convert31TypeArraysTo30 (convert30NullablesTo31TypeArrays nullableString)
  = nullableString.
Proof.
  apply (nullable_upgrade_then_downgrade nullableString "string" true);
    [reflexivity | discriminate | reflexivity | reflexivity].
Defined.

(** Whatever the fragment, the 3.1-to-3.0 nullability rule leaves a type
    array of at most one entry, and applying it again changes nothing. *)
Theorem convert31TypeArraysTo30_single_type (s : Schema) :
  length (Type_ (convert31TypeArraysTo30 s)) ≤ 1
  ∧ convert31TypeArraysTo30 (convert31TypeArraysTo30 s)
    = convert31TypeArraysTo30 s.
Proof.
  assert (length (Type_ (convert31TypeArraysTo30 s)) ≤ 1) as Hlen.
  { unfold convert31TypeArraysTo30.
    destruct (scanTypes (Type_ s)) as [nullable nonNullType].
    destruct (nullable && (length (Type_ s) =? 2)) eqn:Hfirst.
    - simpl. rewrite length_take. lia.
    - destruct (2 <=? length (Type_ s)) eqn:Hsecond; simpl; [lia|].
      apply Nat.leb_gt in Hsecond. lia. }
  split; [done | by apply convert31TypeArraysTo30_short].
Qed.

(** The 3.0-to-3.1 nullability rule always leaves the nullable flag unset,
    so that a second application changes nothing. *)
Theorem convert30NullablesTo31TypeArrays_clears_flag (s : Schema) :
  Nullable (convert30NullablesTo31TypeArrays s) = None
  ∧ convert30NullablesTo31TypeArrays (convert30NullablesTo31TypeArrays s)
    = convert30NullablesTo31TypeArrays s.
Proof.
  assert (Nullable (convert30NullablesTo31TypeArrays s) = None) as Hnone.
  { unfold convert30NullablesTo31TypeArrays.
    destruct (Nullable s) as [[|]|] eqn:Hnu; done. }
  split; [done|].
  unfold convert30NullablesTo31TypeArrays at 1. by rewrite Hnone.
Qed.

Section MoreBounds.
Implicit Types (p : BoundPair).

(** After the 3.1-to-3.0 closure the indicator is never in numeric form,
    and a second application changes nothing. *)
Lemma convert31ExclusiveBoundTo30_boolean p :
  match snd (convert31ExclusiveBoundTo30 p) with
  | Some e => DynamicValue.IsB e = false
  | None => True
  end
  ∧ convert31ExclusiveBoundTo30 (convert31ExclusiveBoundTo30 p)
    = convert31ExclusiveBoundTo30 p.
Proof.
  destruct p as [bound [[n a v]|]]; [|done].
  unfold convert31ExclusiveBoundTo30, DynamicValue.IsB.
  cbn [DynamicValue.N DynamicValue.B].
  destruct (n =? 1)%Z eqn:Hn; cbn [snd DynamicValue.N]; [done|].
  by rewrite Hn.
Qed.

End MoreBounds.

(** After the 3.1-to-3.0 bound rule neither exclusivity indicator of the
    fragment is in numeric form, and the rule applied again changes
    nothing. *)
Theorem convert31MinMaxTo30_boolean_indicators (s : Schema) :
  match ExclusiveMinimum (convert31MinMaxTo30 s) with
  | Some e => DynamicValue.IsB e = false
  | None => True
  end
  ∧ match ExclusiveMaximum (convert31MinMaxTo30 s) with
    | Some e => DynamicValue.IsB e = false
    | None => True
    end
  ∧ convert31MinMaxTo30 (convert31MinMaxTo30 s) = convert31MinMaxTo30 s.
Proof.
  pose proof (convert31ExclusiveBoundTo30_boolean (minimumPair s)) as [Hmin Hmin2].
  pose proof (convert31ExclusiveBoundTo30_boolean (maximumPair s)) as [Hmax Hmax2].
  rewrite <- minimumPair_convert31 in Hmin, Hmin2.
  rewrite <- maximumPair_convert31 in Hmax, Hmax2.
  split; [exact Hmin|]. split; [exact Hmax|].
  unfold convert31MinMaxTo30 at 1.
  rewrite Hmin2, maximumPair_set_MinimumPair, Hmax2.
  destruct (convert31MinMaxTo30 s). reflexivity.
Qed.


Section FormatDowngrade.
Variable Mutate : string -> string -> string.
Implicit Types (s : Schema) (low : LowSchema).

Lemma length_pos_eqb (x : string) :
  (0 <? String.length x) = negb (String.eqb x EmptyString).
Proof. by destruct x. Qed.

Lemma convert31ContentFieldsTo30Formats_format_eq s low :
  Type_ s = ["string"] → GoLow s = Some low →
  Format (convert31ContentFieldsTo30Formats Mutate s)
  = if String.eqb (ContentEncoding low) "base64" then "base64"
    else if String.eqb (ContentMediaType low) "application/octet-stream"
         then "binary"
         else Format s.
Proof.
  intros Hty Hlow. unfold convert31ContentFieldsTo30Formats.
  rewrite (proj2 (soleTypeIsString_spec s) Hty), Hlow.
  destruct low as [mt ce]. cbn [ContentMediaType ContentEncoding].
  rewrite !length_pos_eqb.
  destruct (String.eqb_spec mt EmptyString) as [->|_];
    destruct (String.eqb_spec ce EmptyString) as [->|_]; cbn [negb];
    try destruct (String.eqb_spec mt "application/octet-stream");
    try destruct (String.eqb_spec ce "base64"); subst; try done.
Qed.

(** The 3.1-to-3.0 format rule on a parsed fragment whose only type is
    "string": a content encoding "base64" gives the format "base64",
    otherwise a content media type "application/octet-stream" gives the
    format "binary", and otherwise the format stays. The encoding wins
    when both markers are there. The type array, the nullable flag and the
    bounds are not touched. *)
Theorem convert31ContentFieldsTo30Formats_format s low :
  Type_ s = ["string"] → GoLow s = Some low →
  let s' := convert31ContentFieldsTo30Formats Mutate s in
  Format s'
  = (if String.eqb (ContentEncoding low) "base64" then "base64"
     else if String.eqb (ContentMediaType low) "application/octet-stream"
          then "binary"
          else Format s)
  ∧ Type_ s' = Type_ s ∧ Nullable s' = Nullable s
  ∧ minimumPair s' = minimumPair s ∧ maximumPair s' = maximumPair s.
Proof.
  intros Hty Hlow s'. split; [by apply convert31ContentFieldsTo30Formats_format_eq|].
  subst s'. unfold convert31ContentFieldsTo30Formats.
  rewrite (proj2 (soleTypeIsString_spec s) Hty), Hlow.
  repeat match goal with
         | |- context [if ?b then _ else _] => destruct b
         end; done.
Qed.

(** Outside its guard, on a fragment whose type array is not ["string"] or
    that has no low-level schema, the 3.1-to-3.0 format rule does nothing. *)
Lemma convert31ContentFieldsTo30Formats_guard s :
  Type_ s ≠ ["string"] ∨ GoLow s = None →
  convert31ContentFieldsTo30Formats Mutate s = s.
Proof.
  intros H. unfold convert31ContentFieldsTo30Formats.
  destruct (soleTypeIsString s) eqn:Hsole; [|done].
  apply soleTypeIsString_spec in Hsole.
  destruct H as [H | ->]; done.
Qed.

(** A parsed string fragment with format "base64" gets its format back
    from the 3.0-to-3.1 rule followed by the 3.1-to-3.0 rule. With format
    "binary" or "byte" it does not: the first rule writes the media type
    "base64", which the second does not recognise, and the format ends up
    empty unless the fragment already had the content encoding "base64". *)
Theorem format_upgrade_then_downgrade s low :
  Type_ s = ["string"] → GoLow s = Some low →
  (Format s = "base64" →
   Format (convert31ContentFieldsTo30Formats Mutate
             (convert30FormatsTo31ContentFields s)) = "base64")
  ∧ (Format s = "binary" ∨ Format s = "byte" →
     ContentEncoding low ≠ "base64" →
     Format (convert31ContentFieldsTo30Formats Mutate
               (convert30FormatsTo31ContentFields s)) = EmptyString).
Proof.
  intros Hty Hlow. split.
  - intros Hfmt. rewrite (convert30FormatsTo31ContentFields_base64 s Hty Hfmt).
    unfold setContentEncoding. rewrite Hlow.
    by rewrite (convert31ContentFieldsTo30Formats_format_eq _
                  (mkLow (ContentMediaType low) "base64")).
  - intros Hfmt Hce.
    rewrite (convert30FormatsTo31ContentFields_binary s Hty Hfmt).
    unfold setContentMediaType. rewrite Hlow.
    rewrite (convert31ContentFieldsTo30Formats_format_eq _
               (mkLow "base64" (ContentEncoding low))) by done.
    cbn [ContentEncoding ContentMediaType].
    by rewrite (proj2 (String.eqb_neq _ _) Hce).
Qed.

Lemma convert31ContentFieldsTo30Formats_frame s :
  Type_ (convert31ContentFieldsTo30Formats Mutate s) = Type_ s
  ∧ Nullable (convert31ContentFieldsTo30Formats Mutate s) = Nullable s.
Proof.
  unfold convert31ContentFieldsTo30Formats.
  destruct (soleTypeIsString s); [|done]. destruct (GoLow s); [|done].
  repeat match goal with
         | |- context [if ?b then _ else _] => destruct b
         end; done.
Qed.

Lemma callback30To31_nullable_string {Node} s (examples : ExampleFields Node) :
  Type_ s = ["string"] → Nullable s = Some true →
  let s' := fst (callback30To31 s examples) in
  Type_ s' = ["string"; "null"] ∧ Nullable s' = None
  ∧ Format s' = Format s ∧ GoLow s' = GoLow s.
Proof.
  intros Hty Hnu. unfold callback30To31. cbn [fst].
  unfold convert30NullablesTo31TypeArrays. rewrite Hnu.
  rewrite convert30FormatsTo31ContentFields_guard.
  - destruct s; simpl in *; by subst.
  - left. destruct s; simpl in *; by subst.
Qed.

(** In the callback of the 3.0-to-3.1 conversion the nullability rule runs
    before the format rule: a nullable string fragment has two types by the
    time the format rule looks at it, so its format is kept and no content
    marker is set. *)
Theorem callback30To31_nullable_string_keeps_format
    {Node} s (examples : ExampleFields Node) :
  Type_ s = ["string"] → Nullable s = Some true →
  let s' := fst (callback30To31 s examples) in
  Type_ s' = ["string"; "null"] ∧ Nullable s' = None
  ∧ Format s' = Format s ∧ GoLow s' = GoLow s.
Proof. apply callback30To31_nullable_string. Qed.

(** A nullable string fragment of a 3.0 document, which has no content
    markers, comes back from the callback of the 3.0-to-3.1 conversion
    followed by the callback of the 3.1-to-3.0 conversion with its type,
    its nullable flag and its format as they were. *)
Theorem callbacks_nullable_string_round_trip
    {Node} s (examples examples' : ExampleFields Node) :
  Type_ s = ["string"] → Nullable s = Some true →
  GoLow s = None ∨ GoLow s = Some (mkLow EmptyString EmptyString) →
  let s' := fst (callback31To30 Mutate (fst (callback30To31 s examples))
                   examples') in
  Type_ s' = Type_ s ∧ Nullable s' = Nullable s ∧ Format s' = Format s.
Proof.
  intros Hty Hnu Hlow.
  destruct (callback30To31_nullable_string s examples Hty Hnu)
    as (Hty1 & Hnu1 & Hfmt1 & Hlow1).
  set (s1 := fst (callback30To31 s examples)) in *.
  unfold callback31To30. cbn [fst].
  rewrite (convert31TypeArraysTo30_pair s1 "string") by (done || by left).
  set (s2 := convert31MinMaxTo30 _).
  assert (Type_ s2 = ["string"] ∧ Nullable s2 = Some true
          ∧ Format s2 = Format s ∧ GoLow s2 = GoLow s) as (Hty2 & Hnu2 & Hfmt2 & Hlow2).
  { subst s2. by rewrite <- Hfmt1, <- Hlow1. }
  destruct (convert31ContentFieldsTo30Formats_frame s2) as [-> ->].
  rewrite Hty, Hnu. split; [done|]. split; [done|].
  destruct Hlow as [Hnone | Hsome].
  - rewrite convert31ContentFieldsTo30Formats_guard; [done|].
    right. by rewrite Hlow2.
  - rewrite (convert31ContentFieldsTo30Formats_format_eq s2
               (mkLow EmptyString EmptyString)); [done|done|].
    by rewrite Hlow2.
Qed.
End FormatDowngrade.

Lemma convert31ContentFieldsTo30Formats_format_witness :
  Format (convert31ContentFieldsTo30Formats (fun _ old => old)
            (set_GoLow (Some (mkLow "application/octet-stream" "base64"))
               (set_Type ["string"] zeroSchema)))
  = "base64".
Proof.
  apply (convert31ContentFieldsTo30Formats_format (fun _ old => old)
           (set_GoLow (Some (mkLow "application/octet-stream" "base64"))
              (set_Type ["string"] zeroSchema))
           (mkLow "application/octet-stream" "base64"));
    reflexivity.
Defined.

Lemma format_upgrade_then_downgrade_witness :
  Format (convert31ContentFieldsTo30Formats (fun _ old => old)
            (convert30FormatsTo31ContentFields
               (set_GoLow (Some (mkLow EmptyString EmptyString))
                  binaryStringSchema)))
  = EmptyString
  ∧ Format (convert31ContentFieldsTo30Formats (fun _ old => old)
              (convert30FormatsTo31ContentFields
                 (set_Format "base64"
                    (set_GoLow (Some (mkLow EmptyString EmptyString))
                       binaryStringSchema))))
    = "base64".
Proof.
  split.
  - apply (proj2 (format_upgrade_then_downgrade (fun _ old => old)
                    (set_GoLow (Some (mkLow EmptyString EmptyString))
                       binaryStringSchema)
                    (mkLow EmptyString EmptyString) eq_refl eq_refl));
      [left; reflexivity | discriminate].
  - apply (proj1 (format_upgrade_then_downgrade (fun _ old => old)
                    (set_Format "base64"
                       (set_GoLow (Some (mkLow EmptyString EmptyString))
                          binaryStringSchema))
                    (mkLow EmptyString EmptyString) eq_refl eq_refl)).
    reflexivity.
Defined.

Lemma callback30To31_nullable_string_keeps_format_witness :
  Format (fst (callback30To31 (set_Nullable (Some true) binaryStringSchema)
                 (@None unit, [])))
  = "binary".
Proof.
  apply (callback30To31_nullable_string_keeps_format
           (set_Nullable (Some true) binaryStringSchema) (@None unit, []));
    reflexivity.
Defined.

Lemma callbacks_nullable_string_round_trip_witness :
  Format (fst (callback31To30 (fun _ old => old)
                 (fst (callback30To31
                         (set_Nullable (Some true) binaryStringSchema)
                         (@None unit, [])))
                 (@None unit, [])))
  = "binary".
Proof.
  apply (callbacks_nullable_string_round_trip (fun _ old => old)
           (set_Nullable (Some true) binaryStringSchema)
           (@None unit, []) (@None unit, []));
    [reflexivity | reflexivity | left; reflexivity].
Defined.

(** ** Examples *)

(** The example rules in sequence. From 3.0 to 3.1 and back, a fragment
    with an example keeps it and ends with no examples list, whatever list
    it had; from 3.1 to 3.0 and back, only the first of the examples is
    left. A fragment with neither is not touched by either rule. *)
Theorem example_round_trips {Node} (example : Node) (examples : list Node)
    (old : option Node) :
  convert31ExamplesTo30Example
    (convert30ExampleTo31Examples (Some example, examples))
  = (Some example, [])
  ∧ convert30ExampleTo31Examples
      (convert31ExamplesTo30Example (old, example :: examples))
    = (None, [example])
  ∧ convert30ExampleTo31Examples (@None Node, []) = (None, [])
  ∧ convert31ExamplesTo30Example (@None Node, []) = (None, []).
Proof. done. Qed.

(** ** Required and read-only properties *)

Section RequiredReadonly.
Implicit Types (schema : RequiredFields).

Lemma foldl_append_filter {A} (keep : A → bool) (l acc : list A) :
  foldl (fun newRequired x => if keep x then newRequired ++ [x] else newRequired)
    acc l
  = acc ++ filter (fun x => keep x = true) l.
Proof.
  revert acc. induction l as [|x l IH]; intros acc; simpl.
  - by rewrite app_nil_r.
  - rewrite IH. destruct (keep x) eqn:Hkeep.
    + rewrite filter_cons_True by done. by rewrite <- app_assoc.
    + by rewrite filter_cons_False by (by rewrite Hkeep).
Qed.

Lemma make30RequiredAndReadonlyPropertiesOnlyReadonly_filter schema :
  make30RequiredAndReadonlyPropertiesOnlyReadonly schema
  = mkRequiredFields
      (filter (fun propName =>
                 isReadonly (PropertyReadOnly schema) propName = false)
              (Required schema))
      (PropertyReadOnly schema).
Proof.
  unfold make30RequiredAndReadonlyPropertiesOnlyReadonly.
  destruct schema as [required [ps|]]; cbn [Required PropertyReadOnly].
  - destruct required as [|r required]; [done|]. cbn [length Nat.ltb Nat.leb].
    rewrite foldl_append_filter. cbn [app]. f_equal.
    apply list_filter_iff. intros x. by destruct (isReadonly _ x).
  - f_equal. induction required as [|r required IH]; [done|].
    rewrite filter_cons_True by done. by rewrite <- IH.
Qed.

(** [make30RequiredAndReadonlyPropertiesOnlyReadonly] keeps, in their
    order, exactly the required names whose property is not marked
    read-only (a name without a property, or a property without the mark,
    is kept), leaves the properties alone, and changes nothing when run
    again. *)
Theorem make30RequiredAndReadonlyPropertiesOnlyReadonly_keeps_writable schema :
  let schema' := make30RequiredAndReadonlyPropertiesOnlyReadonly schema in
  (∀ propName,
     propName ∈ Required schema'
     ↔ propName ∈ Required schema
       ∧ isReadonly (PropertyReadOnly schema) propName = false)
  ∧ Required schema' `sublist_of` Required schema
  ∧ PropertyReadOnly schema' = PropertyReadOnly schema
  ∧ make30RequiredAndReadonlyPropertiesOnlyReadonly schema' = schema'.
Proof.
  intros schema'. subst schema'.
  rewrite !make30RequiredAndReadonlyPropertiesOnlyReadonly_filter.
  cbn [Required PropertyReadOnly]. split; [|split; [|split]].
  - intros propName. rewrite list_elem_of_filter. tauto.
  - apply sublist_filter.
  - reflexivity.
  - f_equal. apply list_filter_filter_l. done.
Qed.
End RequiredReadonly.

(** A required property that is read-only is dropped, one that is not is
    kept, and so is a required name that has no property. *)
Example make30RequiredAndReadonlyPropertiesOnlyReadonly_sample :
  Required (make30RequiredAndReadonlyPropertiesOnlyReadonly
              (mkRequiredFields ["id"; "name"; "ghost"]
                 (Some [("id", Some true); ("name", Some false)])))
  = ["name"; "ghost"].
Proof. reflexivity. Qed.

(** ** The visitor *)

Section VisitorMore.


End VisitorMore.

(** ** The document-wide passes *)

Section DocumentPasses.
Local Abbreviation visit := (fun root : Schema => children root ++ [root]).

Lemma forEachOldest_recording {V} (body : V → list Schema → V * list Schema)
    (seen : V → list Schema) (m : list (string * V)) (visited : list Schema) :
  (∀ v visited, body v visited = (v, visited ++ seen v)) →
  forEachOldest body m visited = (m, visited ++ (m.*2 ≫= seen)).
Proof.
  intros Hbody. revert visited.
  induction m as [|[k v] m IH]; intros visited; simpl.
  - by rewrite app_nil_r.
  - rewrite Hbody, IH. by rewrite <- app_assoc.
Qed.

Lemma forEachOldestOpt_recording {V} (body : V → list Schema → V * list Schema)
    (seen : V → list Schema) (m : option (list (string * V)))
    (visited : list Schema) :
  (∀ v visited, body v visited = (v, visited ++ seen v)) →
  forEachOldestOpt body m visited
  = (m, visited ++ ((default [] m).*2 ≫= seen)).
Proof.
  intros Hbody. destruct m as [m|]; simpl.
  - by rewrite (forEachOldest_recording body seen).
  - by rewrite app_nil_r.
Qed.

Lemma bind_omap {A B C} (f : A → option B) (g : B → list C) (l : list A) :
  omap f l ≫= g = l ≫= (fun x => match f x with Some y => g y | None => [] end).
Proof.
  induction l as [|x l IH]; [done|]. csimpl.
  destruct (f x); csimpl; by rewrite IH.
Qed.

Lemma bind_bind {A B C} (f : A → list B) (g : B → list C) (l : list A) :
  (l ≫= f) ≫= g = l ≫= (fun x => f x ≫= g).
Proof.
  induction l as [|x l IH]; [done|]. csimpl. by rewrite bind_app, IH.
Qed.

Lemma updateMediaType_recording (content : v3.MediaType.t)
    (visited : list Schema) :
  updateMediaType recordingCallback content visited
  = (content,
     visited ++ match v3.MediaType.Schema content with
                | Some schema => visit schema
                | None => []
                end).
Proof.
  unfold updateMediaType. destruct content as [[schema|]];
    cbn [v3.MediaType.Schema].
  - by rewrite updateSchemaAndReferencedSchema_calls.
  - by rewrite app_nil_r.
Qed.

Lemma contentSchemas_visit (content : option (list (string * v3.MediaType.t))) :
  (default [] content).*2
    ≫= (fun mt => match v3.MediaType.Schema mt with
                  | Some schema => visit schema
                  | None => []
                  end)
  = contentSchemas content ≫= visit.
Proof. unfold contentSchemas. by rewrite bind_omap. Qed.

Lemma updateResponseSchema_recording (code : v3.Response.t)
    (visited : list Schema) :
  updateResponseSchema recordingCallback code visited
  = (code, visited ++ (contentSchemas (v3.Response.Content code) ≫= visit)).
Proof.
  unfold updateResponseSchema. destruct code as [content].
  cbn [v3.Response.Content].
  rewrite (forEachOldestOpt_recording _ _ _ _ updateMediaType_recording).
  by rewrite contentSchemas_visit.
Qed.

Lemma updateOperationSchema_recording (operation : v3.Operation.t)
    (visited : list Schema) :
  updateOperationSchema recordingCallback operation visited
  = (operation, visited ++ (operationSchemas operation ≫= visit)).
Proof.
  unfold updateOperationSchema, operationSchemas.
  destruct operation as [[[content]|] [[codes]|]];
    cbn [v3.Operation.RequestBody v3.Operation.Responses
         v3.RequestBody.Content v3.Responses.Codes].
  all: rewrite ?(forEachOldestOpt_recording _ _ _ _ updateMediaType_recording),
         ?(forEachOldestOpt_recording _ _ _ _ updateResponseSchema_recording).
  all: rewrite ?contentSchemas_visit, ?bind_app, ?bind_bind,
         ?app_nil_r, <- ?app_assoc; reflexivity.
Qed.

Lemma updatePathItemSchema_recording (pathItem : v3.PathItem.t)
    (visited : list Schema) :
  updatePathItemSchema recordingCallback pathItem visited
  = (pathItem,
     visited ++ ((v3.PathItem.GetOperations pathItem).*2
                   ≫= (fun operation => operationSchemas operation ≫= visit))).
Proof.
  unfold updatePathItemSchema. destruct pathItem as [operations].
  cbn [v3.PathItem.GetOperations].
  by rewrite (forEachOldest_recording _ _ _ _ updateOperationSchema_recording).
Qed.

Lemma pathItems_visit (pathItems : list v3.PathItem.t) :
  pathItems
    ≫= (fun pathItem =>
          (v3.PathItem.GetOperations pathItem).*2
            ≫= (fun operation => operationSchemas operation ≫= visit))
  = (pathItems
       ≫= (fun pathItem =>
             (v3.PathItem.GetOperations pathItem).*2 ≫= operationSchemas))
      ≫= visit.
Proof.
  rewrite bind_bind. apply list_bind_ext; [|done].
  intros pathItem. by rewrite bind_bind.
Qed.

Lemma updateComponentSchema_recording (value : Schema) (visited : list Schema) :
  updateComponentSchema recordingCallback value visited
  = (value, visited ++ visit value).
Proof.
  unfold updateComponentSchema.
  by rewrite updateSchemaAndReferencedSchema_calls.
Qed.

Lemma updateParameterSchema_recording (value : v3.Param.t)
    (visited : list Schema) :
  updateParameterSchema recordingCallback value visited
  = (value,
     visited ++ match v3.Param.Schema value with
                | Some schema => visit schema
                | None => []
                end).
Proof.
  unfold updateParameterSchema. destruct value as [[schema|]];
    cbn [v3.Param.Schema]; [|simpl].
  - by rewrite updateSchemaAndReferencedSchema_calls.
  - by rewrite app_nil_r.
Qed.

(** [updateAllSchema] hands the callback, for each root schema of the
    document in turn (the component schemas, the schemas of the component
    parameters, then per path item and operation the schemas of the request
    body content and of the content of each response), its sub-schemas one
    level down followed by the root itself, and nothing else. Content
    entries and parameters without schema are passed over. *)
Theorem updateAllSchema_calls (model : v3.Document.t) (visited : list Schema) :
  updateAllSchema recordingCallback model visited
  = (model, visited ++ (documentRoots model ≫= visit)).
Proof.
  unfold updateAllSchema, documentRoots.
  destruct model as [version [[schemas parameters]|] [[pathItems]|]];
    cbn [v3.Document.Components v3.Document.Paths v3.Document.Version
         v3.Components.Schemas v3.Components.Parameters v3.Paths.PathItems].
  all: rewrite
         ?(forEachOldestOpt_recording _ _ _ _ updateComponentSchema_recording),
         ?(forEachOldestOpt_recording _ _ _ _ updateParameterSchema_recording),
         ?(forEachOldestOpt_recording _ _ _ _ updatePathItemSchema_recording).
  all: rewrite ?pathItems_visit, ?bind_app, ?bind_omap, ?app_nil_r,
         <- ?app_assoc; reflexivity.
Qed.
End DocumentPasses.

(** ** The request-body passes *)

Section RequestBodyPasses.
Implicit Types (model : v3.Document.t)
  (content : list (string * v3.MediaType.t)).

Lemma omapGet_omapUpdate {V} (key : string) (f : V → V) (m : list (string * V)) :
  omapGet key (omapUpdate key f m) = f <$> omapGet key m.
Proof.
  induction m as [|[k v] m IH]; [done|]. simpl.
  destruct (String.eqb k key) eqn:Hk; simpl; by rewrite Hk.
Qed.

Lemma omapGet_omapUpdate_ne {V} (key other : string) (f : V → V)
    (m : list (string * V)) :
  other ≠ key → omapGet other (omapUpdate key f m) = omapGet other m.
Proof.
  intros Hne. induction m as [|[k v] m IH]; [done|]. simpl.
  destruct (String.eqb_spec k key) as [->|Hk]; simpl.
  - by rewrite (proj2 (String.eqb_neq key other)).
  - by rewrite IH.
Qed.

Lemma omapUpdate_omapUpdate {V} (key : string) (f g : V → V)
    (m : list (string * V)) :
  omapUpdate key f (omapUpdate key g m) = omapUpdate key (f ∘ g) m.
Proof.
  induction m as [|[k v] m IH]; [done|]. simpl.
  destruct (String.eqb k key) eqn:Hk; simpl; rewrite Hk; [done|].
  by rewrite IH.
Qed.

Lemma onRequestBodyContents_compose f g model :
  onRequestBodyContents f (onRequestBodyContents g model)
  = onRequestBodyContents (f ∘ g) model.
Proof.
  destruct model as [version components [[[pathItems|]]|]]; try done.
  unfold onRequestBodyContents. simpl. do 4 f_equal.
  rewrite <- list_fmap_compose. apply list_fmap_ext.
  intros _ [name [operations]] _. simpl. do 2 f_equal.
  rewrite <- list_fmap_compose. apply list_fmap_ext.
  intros _ [method [[[content]|] responses]] _; simpl; [|done].
  do 4 f_equal. by destruct content.
Qed.

Lemma onRequestBodyContents_ext f g model :
  (∀ content, f content = g content) →
  onRequestBodyContents f model = onRequestBodyContents g model.
Proof.
  intros Hfg.
  destruct model as [version components [[[pathItems|]]|]]; try done.
  unfold onRequestBodyContents. simpl. do 4 f_equal.
  apply list_fmap_ext. intros _ [name [operations]] _. simpl. do 2 f_equal.
  apply list_fmap_ext.
  intros _ [method [[[content]|] responses]] _; simpl; [|done].
  do 4 f_equal. destruct content; simpl; [|done]. by rewrite Hfg.
Qed.

Lemma requestBodyContents_onRequestBodyContents f model :
  requestBodyContents (onRequestBodyContents f model)
  = f <$> requestBodyContents model.
Proof.
  destruct model as [version components [[[pathItems|]]|]]; try done.
  unfold requestBodyContents, onRequestBodyContents. simpl.
  induction pathItems as [|[name [operations]] pathItems IH]; [done|].
  csimpl. rewrite fmap_app, <- IH. f_equal. clear IH.
  induction operations as [|[method [[[content]|] responses]] operations IH];
    [done|..]; csimpl.
  - destruct content as [content|]; csimpl; by rewrite IH.
  - by rewrite IH.
Qed.

(** After [ensureRequestBodyContentSchemas] the request bodies have the
    same content entries, under the same keys and in the same order, and
    every entry has a schema: its own if it had one, an object schema
    otherwise. A second run changes nothing. *)
Theorem ensureRequestBodyContentSchemas_fills model :
  Forall2
    (Forall2 (fun old new : string * v3.MediaType.t =>
                new.1 = old.1
                ∧ v3.MediaType.Schema new.2
                  = Some (default objectSchema (v3.MediaType.Schema old.2))))
    (requestBodyContents model)
    (requestBodyContents (ensureRequestBodyContentSchemas model))
  ∧ ensureRequestBodyContentSchemas (ensureRequestBodyContentSchemas model)
    = ensureRequestBodyContentSchemas model.
Proof.
  unfold ensureRequestBodyContentSchemas. split.
  - rewrite requestBodyContents_onRequestBodyContents.
    induction (requestBodyContents model) as [|content contents IH];
      constructor; [|done].
    induction content as [|[name [[schema|]]] content IHc]; by constructor.
  - rewrite onRequestBodyContents_compose. apply onRequestBodyContents_ext.
    intros content. simpl. rewrite <- list_fmap_compose.
    apply list_fmap_ext. by intros _ [name [[schema|]]] _.
Qed.

(** After [set31RequestFileContentSchemaFor30] the request-body entry for
    "application/octet-stream", where there is one, has the binary string
    schema; after [clear30RequestFileContentSchemaFor31] it has none. Both
    leave the entries under every other media type as they were. *)
Theorem request_file_content_schema model :
  Forall2
    (fun old new : list (string * v3.MediaType.t) =>
       omapGet octetStream new
       = (fun _ => v3.MediaType.mk (Some binaryStringSchema))
           <$> omapGet octetStream old
       ∧ ∀ mediaType, mediaType ≠ octetStream →
                      omapGet mediaType new = omapGet mediaType old)
    (requestBodyContents model)
    (requestBodyContents (set31RequestFileContentSchemaFor30 model))
  ∧ Forall2
      (fun old new : list (string * v3.MediaType.t) =>
         omapGet octetStream new
         = (fun _ => v3.MediaType.mk None) <$> omapGet octetStream old
         ∧ ∀ mediaType, mediaType ≠ octetStream →
                        omapGet mediaType new = omapGet mediaType old)
      (requestBodyContents model)
      (requestBodyContents (clear30RequestFileContentSchemaFor31 model)).
Proof.
  unfold set31RequestFileContentSchemaFor30, clear30RequestFileContentSchemaFor31.
  rewrite !requestBodyContents_onRequestBodyContents.
  split; apply Forall2_fmap_r, Forall_Forall2_diag, Forall_forall;
    intros content _; (split; [apply omapGet_omapUpdate|]);
    intros mediaType Hne; by apply omapGet_omapUpdate_ne.
Qed.

(** Setting the upload schema after clearing it is the same as setting it,
    and clearing it after setting it is the same as clearing it: what the
    "application/octet-stream" entry held before has no influence. *)
Theorem request_file_content_schema_overwrites model :
  set31RequestFileContentSchemaFor30 (clear30RequestFileContentSchemaFor31 model)
  = set31RequestFileContentSchemaFor30 model
  ∧ clear30RequestFileContentSchemaFor31 (set31RequestFileContentSchemaFor30 model)
    = clear30RequestFileContentSchemaFor31 model.
Proof.
  unfold set31RequestFileContentSchemaFor30, clear30RequestFileContentSchemaFor31.
  rewrite !onRequestBodyContents_compose.
  split; apply onRequestBodyContents_ext; intros content;
    simpl; by rewrite omapUpdate_omapUpdate.
Qed.
End RequestBodyPasses.

(** ** Tags *)

Section Tags.
Implicit Types (tags : list string) (seen : gset string).

Lemma filter_all {A} (P : A → Prop) `{∀ x, Decision (P x)} (l : list A) :
  Forall P l → filter P l = l.
Proof.
  induction 1 as [|x l Hx Hl IH]; [done|].
  rewrite filter_cons_True by done. by rewrite IH.
Qed.

(** The loop of [deduplicateTags] started from any [seen] set and any
    slice, in terms of the loop started from nothing. *)
Lemma uniqueTagsOf_from tags seen (unique : list string) :
  snd (foldl (fun acc tag =>
                if bool_decide (tag ∈ fst acc) then acc
                else ({[tag]} ∪ fst acc, snd acc ++ [tag]))
             (seen, unique) tags)
  = unique ++ filter (fun tag => tag ∉ seen) (snd (uniqueTagsOf tags)).
Proof.
  revert seen unique. induction tags as [|tag tags IH]; intros seen unique.
  - simpl. by rewrite app_nil_r.
  - unfold uniqueTagsOf. cbn [foldl fst snd].
    rewrite (bool_decide_eq_false_2 (tag ∈ (∅ : gset string))) by set_solver.
    rewrite (IH ({[tag]} ∪ ∅) ([] ++ [tag])). cbn [app].
    destruct (bool_decide (tag ∈ seen)) eqn:Hin.
    + apply bool_decide_eq_true_1 in Hin. rewrite IH.
      rewrite filter_cons_False by (intros Hn; by apply Hn).
      f_equal. rewrite list_filter_filter. apply list_filter_iff.
      intros t. set_solver.
    + apply bool_decide_eq_false_1 in Hin. rewrite IH, <- app_assoc.
      rewrite filter_cons_True by done. cbn [app]. do 2 f_equal.
      rewrite list_filter_filter. apply list_filter_iff.
      intros t. set_solver.
Qed.

Lemma uniqueTagsOf_cons (tag : string) tags :
  snd (uniqueTagsOf (tag :: tags))
  = tag :: filter (fun t => t ≠ tag) (snd (uniqueTagsOf tags)).
Proof.
  unfold uniqueTagsOf at 1. cbn [foldl fst snd].
  rewrite (bool_decide_eq_false_2 (tag ∈ (∅ : gset string))) by set_solver.
  rewrite uniqueTagsOf_from. cbn [app]. f_equal.
  apply list_filter_iff. intros t. set_solver.
Qed.

Lemma uniqueTagsOf_elem_of tags (t : string) :
  t ∈ snd (uniqueTagsOf tags) ↔ t ∈ tags.
Proof.
  induction tags as [|tag tags IH]; [done|].
  rewrite (uniqueTagsOf_cons tag tags).
  rewrite !elem_of_cons, list_elem_of_filter, IH.
  destruct (decide (t = tag)); naive_solver.
Qed.

Lemma uniqueTagsOf_NoDup tags : NoDup (snd (uniqueTagsOf tags)).
Proof.
  induction tags as [|tag tags IH]; [constructor|].
  rewrite (uniqueTagsOf_cons tag tags).
  constructor; [|by apply NoDup_filter].
  rewrite list_elem_of_filter. by intros [Hne _].
Qed.

Lemma uniqueTagsOf_sublist tags : snd (uniqueTagsOf tags) `sublist_of` tags.
Proof.
  induction tags as [|tag tags IH]; [done|].
  rewrite (uniqueTagsOf_cons tag tags).
  apply sublist_skip. etrans; [apply sublist_filter | done].
Qed.

Lemma uniqueTagsOf_fixed tags : NoDup tags → snd (uniqueTagsOf tags) = tags.
Proof.
  induction 1 as [|tag tags Hnotin Hnodup IH]; [done|].
  rewrite (uniqueTagsOf_cons tag tags), IH.
  f_equal. apply filter_all, Forall_forall. intros t Ht ->. done.
Qed.

Lemma deduplicateTags_Some (o : openapi2.Operation.t) :
  deduplicateTags (Some o)
  = Some (set_Tags (snd (uniqueTagsOf (openapi2.Operation.Tags o))) o).
Proof.
  destruct o as [summary description tags operationID responses].
  unfold deduplicateTags. by destruct tags.
Qed.

(** The deduplicated tags are the first tag followed by what deduplication
    leaves of the others, without that tag: every tag stays at its first
    occurrence. *)
Theorem uniqueTagsOf_first_occurrences (tag : string) tags :
  snd (uniqueTagsOf []) = []
  ∧ snd (uniqueTagsOf (tag :: tags))
    = tag :: filter (fun t => t ≠ tag) (snd (uniqueTagsOf tags)).
Proof. split; [done | apply uniqueTagsOf_cons]. Qed.

(** [deduplicateTags] leaves an operation whose tags have no repeats,
    are the tags that were there, each once, in an order they already
    had; the other fields are as before, and a second run changes
    nothing. *)
Theorem deduplicateTags_no_repeats (operation : openapi2.Operation.t) :
  ∃ operation',
    deduplicateTags (Some operation) = Some operation'
    ∧ NoDup (openapi2.Operation.Tags operation')
    ∧ (∀ tag, tag ∈ openapi2.Operation.Tags operation'
              ↔ tag ∈ openapi2.Operation.Tags operation)
    ∧ openapi2.Operation.Tags operation'
        `sublist_of` openapi2.Operation.Tags operation
    ∧ operation' = set_Tags (openapi2.Operation.Tags operation') operation
    ∧ deduplicateTags (Some operation') = Some operation'.
Proof.
  pose proof deduplicateTags_Some as Hdedup.
  eexists. split; [apply Hdedup|]. cbn [set_Tags openapi2.Operation.Tags].
  split; [apply uniqueTagsOf_NoDup|].
  split; [apply uniqueTagsOf_elem_of|].
  split; [apply uniqueTagsOf_sublist|].
  split; [done|].
  rewrite Hdedup. cbn [set_Tags openapi2.Operation.Tags
                           openapi2.Operation.Summary
                           openapi2.Operation.Description
                           openapi2.Operation.OperationID
                           openapi2.Operation.Responses].
  by rewrite (uniqueTagsOf_fixed _ (uniqueTagsOf_NoDup _)).
Qed.
End Tags.

(** ** Method names and descriptions *)

Section MethodNames.
Implicit Types (s p m : string) (c : Ascii.ascii).

Lemma append_cons (a : Ascii.ascii) s1 s2 :
  String a s1 +:+ s2 = String a (s1 +:+ s2).
Proof. reflexivity. Qed.

Lemma length_append s1 s2 :
  String.length (s1 +:+ s2) = String.length s1 + String.length s2.
Proof.
  induction s1 as [|a s1 IH]; [done|].
  rewrite append_cons. simpl. by rewrite IH.
Qed.

Lemma sliceFrom_append p s : Strings.sliceFrom (String.length p) (p +:+ s) = s.
Proof. induction p as [|a p IH]; [by destruct s|]. by rewrite append_cons. Qed.

Lemma sliceFrom_length n s :
  String.length (Strings.sliceFrom n s) = String.length s - n.
Proof.
  revert s. induction n as [|n IH]; intros [|a s]; simpl; try done; lia.
Qed.

(** No occurrence: the value found so far is returned. *)
Lemma lastIndexByteFrom_absent c s (i found : Z) :
  c ∉ String.list_ascii_of_string s →
  Strings.lastIndexByteFrom c s i found = found.
Proof.
  revert i found. induction s as [|a s IH]; intros i found Hnot; [done|].
  simpl in *. apply not_elem_of_cons in Hnot as [Hne Hnot].
  rewrite (proj2 (Ascii.eqb_neq a c)) by done. by apply IH.
Qed.

(** An occurrence with none after it: its index is returned. *)
Lemma lastIndexByteFrom_last c p m (i found : Z) :
  c ∉ String.list_ascii_of_string m →
  Strings.lastIndexByteFrom c (p +:+ String c m) i found
  = (i + Z.of_nat (String.length p))%Z.
Proof.
  intros Hnot. revert i found.
  induction p as [|a p IH]; intros i found.
  - simpl. rewrite Ascii.eqb_refl, lastIndexByteFrom_absent by done. lia.
  - rewrite append_cons. cbn [Strings.lastIndexByteFrom String.length].
    rewrite IH. lia.
Qed.

(** For an operation identifier made of [p], an underscore and a part [m]
    without underscore, the method name is [m]; when [m] is empty, so that
    the identifier ends with its last underscore, it is the whole
    identifier. *)
Theorem methodNameOf_after_last_underscore p m :
  underscore ∉ String.list_ascii_of_string m →
  methodNameOf (p +:+ String underscore m)
  = if decide (m = EmptyString) then p +:+ String underscore m else m.
Proof.
  intros Hnot. unfold methodNameOf, Strings.LastIndexByte.
  rewrite (lastIndexByteFrom_last _ _ _ _ _ Hnot), length_append.
  assert (String.eqb (p +:+ String underscore m) EmptyString = false) as ->.
  { apply String.eqb_neq. by destruct p. }
  cbn [negb String.length].
  assert ((0 <=? 0 + Z.of_nat (String.length p))%Z = true) as ->
    by (apply Z.leb_le; lia).
  cbn [andb]. destruct m as [|a m]; cbn [String.length].
  - rewrite decide_True by done.
    assert ((0 + Z.of_nat (String.length p)
             <? Z.of_nat (String.length p + 1) - 1)%Z = false) as ->
      by (apply Z.ltb_ge; lia).
    done.
  - rewrite decide_False by done.
    assert ((0 + Z.of_nat (String.length p)
             <? Z.of_nat (String.length p + S (S (String.length m))) - 1)%Z
            = true) as -> by (apply Z.ltb_lt; lia).
    replace (Z.to_nat (0 + Z.of_nat (String.length p) + 1))
      with (String.length (p +:+ String underscore EmptyString))
      by (rewrite length_append; simpl; lia).
    replace (p +:+ String underscore (String a m))
      with ((p +:+ String underscore EmptyString) +:+ String a m).
    + apply sliceFrom_append.
    + clear. induction p as [|b p IH]; [done|].
      rewrite !append_cons. by rewrite IH.
Qed.

Lemma methodNameOf_after_last_underscore_witness :
  methodNameOf "Pet_Service_List" = "List".
Proof.
  apply (methodNameOf_after_last_underscore "Pet_Service" "List").
  vm_compute. intros H.
  repeat (apply elem_of_cons in H as [H|H]; [discriminate|]).
  by apply elem_of_nil in H.
Defined.

(** The method name is empty only for an empty operation identifier, and
    an identifier without underscore is its own method name. *)
Theorem methodNameOf_nonempty (operationID : string) :
  (methodNameOf operationID = EmptyString ↔ operationID = EmptyString)
  ∧ (underscore ∉ String.list_ascii_of_string operationID →
     methodNameOf operationID = operationID).
Proof.
  unfold methodNameOf, Strings.LastIndexByte. split.
  - destruct (String.eqb_spec operationID EmptyString) as [->|Hne];
      cbn [negb]; [done|].
    split; [|done]. intros Hempty. exfalso.
    destruct (_ && _) eqn:Hidx; [|done].
    apply andb_true_iff in Hidx as [Hge Hlt].
    apply Z.leb_le in Hge. apply Z.ltb_lt in Hlt.
    apply (f_equal String.length) in Hempty.
    rewrite sliceFrom_length in Hempty. simpl in Hempty. lia.
  - intros Hnot. rewrite lastIndexByteFrom_absent by done.
    destruct (String.eqb_spec operationID EmptyString) as [->|Hne]; done.
Qed.

Lemma methodNameOf_nonempty_witness : methodNameOf "health" = "health".
Proof.
  apply (proj2 (methodNameOf_nonempty "health")).
  vm_compute. intros H.
  repeat (apply elem_of_cons in H as [H|H]; [discriminate|]).
  by apply elem_of_nil in H.
Defined.
End MethodNames.

Section Descriptions.
Import openapi2.
Implicit Types (op : Operation.t).

(** The note is empty or starts with a blank line. *)
Lemma grpcInfoOf_shape op :
  grpcInfoOf op = EmptyString
  ∨ ∃ note, grpcInfoOf op = nl +:+ nl +:+ note.
Proof.
  unfold grpcInfoOf. destruct (_ || _); [|by left].
  destruct (0 <? _); [right; by eexists | by left].
Qed.

(** What [copyDescriptionToSummary] leaves alone. *)
Lemma copyDescriptionToSummary_frame op :
  ∃ op',
    copyDescriptionToSummary (Some op) = Some op'
    ∧ (Operation.Summary op ≠ EmptyString →
       Operation.Summary op' = Operation.Summary op)
    ∧ Operation.Tags op' = Operation.Tags op
    ∧ Operation.OperationID op' = Operation.OperationID op
    ∧ Operation.Responses op' = Operation.Responses op.
Proof.
  eexists. split; [reflexivity|].
  destruct (String.eqb_spec (Operation.Summary op) EmptyString) as [Hs|Hs];
    cbn [andb];
    repeat match goal with
           | |- context [if ?b then _ else _] => destruct b
           end; done.
Qed.



(** An operation without description gets the note as its description,
    without the blank line in front, and its summary is left as it was,
    empty if it was empty. *)
Theorem copyDescriptionToSummary_empty_description op :
  Operation.Description op = EmptyString →
  ∃ op',
    copyDescriptionToSummary (Some op) = Some op'
    ∧ Operation.Summary op' = Operation.Summary op
    ∧ (grpcInfoOf op = EmptyString ∧ op' = op
       ∨ grpcInfoOf op = nl +:+ nl +:+ Operation.Description op').
Proof.
  intros Hdesc. unfold copyDescriptionToSummary. rewrite Hdesc.
  cbn [String.eqb negb andb]. rewrite andb_false_r, Hdesc. cbn [String.eqb negb].
  destruct (grpcInfoOf_shape op) as [-> | [note ->]].
  - eexists. split; [reflexivity|]. split; [done|]. by left.
  - change (nl +:+ nl +:+ note)
      with (String (Ascii.ascii_of_nat 10) (String (Ascii.ascii_of_nat 10) note)).
    eexists. split; [reflexivity|]. split; [done|]. right.
    by destruct note.
Qed.

Lemma copyDescriptionToSummary_empty_description_witness :
  ∃ op',
    copyDescriptionToSummary
      (Some (Operation.mk EmptyString EmptyString ["PetService"] "Pet_Get" None))
    = Some op'
    ∧ Operation.Summary op' = EmptyString
    ∧ (grpcInfoOf (Operation.mk EmptyString EmptyString ["PetService"]
                     "Pet_Get" None) = EmptyString
       ∧ op' = Operation.mk EmptyString EmptyString ["PetService"] "Pet_Get" None
       ∨ grpcInfoOf (Operation.mk EmptyString EmptyString ["PetService"]
                       "Pet_Get" None)
         = nl +:+ nl +:+ Operation.Description op').
Proof.
  apply (copyDescriptionToSummary_empty_description
           (Operation.mk EmptyString EmptyString ["PetService"] "Pet_Get" None)).
  reflexivity.
Defined.

(** [addDefaultErrorResponses] keeps, for every operation, the operation
    identifier and the responses under every code other than "default",
    and leaves its tags without repeats. *)
Theorem addDefaultErrorResponses_keeps_other_responses
    (doc : T.t) (name : string) path m op :
  T.Paths doc !! name = Some path →
  operationOf m path = Some op →
  ∃ path' op',
    T.Paths (addDefaultErrorResponses doc) !! name = Some path'
    ∧ operationOf m path' = Some op'
    ∧ Operation.OperationID op' = Operation.OperationID op
    ∧ NoDup (Operation.Tags op')
    ∧ (∀ tag, tag ∈ Operation.Tags op' ↔ tag ∈ Operation.Tags op)
    ∧ ∀ code, code ≠ "default" →
              default ∅ (Operation.Responses op') !! code
              = default ∅ (Operation.Responses op) !! code.
Proof.
  intros Hpath Hop.
  rewrite lookup_addDefaultErrorResponses, Hpath.
  cbn [fmap option_fmap option_map].
  destruct (copyDescriptionToSummary_frame op)
    as (op1 & Hcopy & _ & Htags1 & Hid1 & Hrs1).
  pose proof (deduplicateTags_Some op1) as Hdedup.
  set (op2 := set_Tags (snd (uniqueTagsOf (Operation.Tags op1))) op1) in *.
  pose proof (uniqueTagsOf_NoDup (Operation.Tags op1)) as Hnodup.
  pose proof (uniqueTagsOf_elem_of (Operation.Tags op1)) as Helem.
  assert (op2 = set_Tags (Operation.Tags op2) op1) as Hset by done.
  eexists. exists (set_Responses
                     (Some (<["default" := defaultErrorResponse]>
                            (default ∅ (Operation.Responses op2)))) op2).
  split; [reflexivity|].
  rewrite !operationOf_onOperations, Hop, Hcopy, Hdedup.
  assert (Operation.OperationID op2 = Operation.OperationID op1
          ∧ Operation.Responses op2 = Operation.Responses op1) as [Hid2 Hrs2]
    by (rewrite Hset; by destruct op1).
  split; [unfold addDefaultErrorResponseToOperation;
          by destruct (Operation.Responses op2)|].
  cbn [set_Responses Operation.OperationID Operation.Tags Operation.Responses].
  split; [congruence|]. split; [done|].
  split; [intros tag; unfold op2; cbn [set_Tags Operation.Tags];
          by rewrite Helem, Htags1|].
  intros code Hcode. cbn [default from_option id].
  rewrite lookup_insert_ne by done.
  by rewrite Hrs2, Hrs1.
Qed.

Lemma addDefaultErrorResponses_keeps_other_responses_witness :
  ∃ path' op',
    T.Paths (addDefaultErrorResponses petsDoc) !! "/pets" = Some path'
    ∧ operationOf GET path' = Some op'
    ∧ Operation.OperationID op' = "PetService_List"
    ∧ NoDup (Operation.Tags op')
    ∧ (∀ tag, tag ∈ Operation.Tags op' ↔ tag ∈ ["PetService"; "PetService"])
    ∧ ∀ code, code ≠ "default" →
              default ∅ (Operation.Responses op') !! code
              = default ∅ (Operation.Responses listPets) !! code.
Proof.
  apply (addDefaultErrorResponses_keeps_other_responses petsDoc "/pets"
           petsPath GET listPets); [vm_compute; reflexivity | reflexivity].
Defined.

(** Both injected names are defined after [addDefaultErrorResponses]. *)
Lemma addDefaultErrorResponses_default_response_defs (doc : T.t) :
  ∀ defs, T.Definitions (addDefaultErrorResponses doc) = Some defs →
          is_Some (defs !! "googleprotobufAny") ∧ is_Some (defs !! "rpcStatus").
Proof.
  intros defs [= <-]. rewrite !addIfAbsent_lookup.
  repeat case_decide; try done; split; eauto.
Qed.

(** The two injected definitions are added once: running
    [addDefaultErrorResponses] on its own output leaves the definitions as
    they are. *)
Theorem addDefaultErrorResponses_definitions_stable (doc : T.t) :
  T.Definitions (addDefaultErrorResponses (addDefaultErrorResponses doc))
  = T.Definitions (addDefaultErrorResponses doc).
Proof.
  unfold addDefaultErrorResponses at 1. cbn [T.Definitions T.Paths].
  destruct (T.Definitions (addDefaultErrorResponses doc)) as [defs|] eqn:Hdefs;
    [|done].
  pose proof (addDefaultErrorResponses_default_response_defs doc) as Hboth.
  rewrite Hdefs in Hboth. destruct (Hboth defs eq_refl) as [[a Ha] [r Hr]].
  f_equal. unfold addIfAbsent. by rewrite Ha, Hr.
Qed.
End Descriptions.

(** ** Upload parameters *)

Section UploadFix.
Implicit Types (operation : Upload.Operation.t) (param : Upload.Param.t).

Lemma fixSwaggerOperationUploadFormat_Some operation :
  fixSwaggerOperationUploadFormat (Some operation)
  = Some (if bool_decide (octetStream ∈ Upload.Operation.Consumes operation)
          then Upload.Operation.mk (Upload.Operation.Consumes operation)
                 ((fun param =>
                     if String.eqb (Upload.Param.In param) "body"
                        && bool_decide (Upload.Param.Schema param = None)
                     then Upload.Param.mk (Upload.Param.In param)
                            (Some binaryStringRef)
                     else param)
                    <$> Upload.Operation.Parameters operation)
          else operation).
Proof. unfold fixSwaggerOperationUploadFormat. by case_bool_decide. Qed.

(** [fixSwaggerOperationUploadFormat] keeps the consumed media types, the
    number and order of the parameters and where each one is located. A
    parameter is changed only if it is a body parameter without schema in
    an operation that consumes "application/octet-stream", and then it
    gets the binary string schema; so every body parameter of such an
    operation has a schema afterwards. A second run changes nothing. *)
Theorem fixSwaggerOperationUploadFormat_fills_body_schema operation :
  ∃ operation',
    fixSwaggerOperationUploadFormat (Some operation) = Some operation'
    ∧ Upload.Operation.Consumes operation' = Upload.Operation.Consumes operation
    ∧ Forall2
        (fun old new : Upload.Param.t =>
           Upload.Param.In new = Upload.Param.In old
           ∧ (new = old
              ∨ octetStream ∈ Upload.Operation.Consumes operation
                ∧ Upload.Param.In old = "body"
                ∧ Upload.Param.Schema old = None
                ∧ Upload.Param.Schema new = Some binaryStringRef))
        (Upload.Operation.Parameters operation)
        (Upload.Operation.Parameters operation')
    ∧ (octetStream ∈ Upload.Operation.Consumes operation →
       Forall (fun param => Upload.Param.In param = "body" →
                            is_Some (Upload.Param.Schema param))
              (Upload.Operation.Parameters operation'))
    ∧ fixSwaggerOperationUploadFormat (Some operation') = Some operation'.
Proof.
  eexists. split; [apply fixSwaggerOperationUploadFormat_Some|].
  destruct operation as [consumes params]. cbn [Upload.Operation.Consumes
    Upload.Operation.Parameters].
  case_bool_decide as Hoctet; cbn [Upload.Operation.Consumes
    Upload.Operation.Parameters].
  - split; [done|]. split; [|split].
    + induction params as [|[location schema] params IH];
        [constructor|]. rewrite fmap_cons. constructor; [|done].
      cbn [Upload.Param.In Upload.Param.Schema].
      destruct (String.eqb_spec location "body") as [->|Hloc]; cbn [andb].
      * case_bool_decide as Hnone; cbn [Upload.Param.In Upload.Param.Schema];
          (split; [done|]); [right; by subst | by left].
      * split; [done | by left].
    + intros _. induction params as [|[location schema] params IH];
        [constructor|]. rewrite fmap_cons. constructor; [|done].
      cbn [Upload.Param.In Upload.Param.Schema].
      destruct (String.eqb_spec location "body") as [->|Hloc]; cbn [andb];
        [|done].
      case_bool_decide as Hnone; cbn [Upload.Param.In Upload.Param.Schema];
        intros _; [by eexists|]. by destruct schema; [eexists|].
    + rewrite fixSwaggerOperationUploadFormat_Some.
      cbn [Upload.Operation.Consumes Upload.Operation.Parameters].
      rewrite bool_decide_eq_true_2 by done. do 2 f_equal.
      induction params as [|[location schema] params IH]; [done|].
      rewrite !fmap_cons. f_equal; [|done].
      cbn [Upload.Param.In Upload.Param.Schema].
      destruct (String.eqb location "body") eqn:Hloc; cbn [andb].
      * case_bool_decide as Hnone; cbn [Upload.Param.In Upload.Param.Schema];
          rewrite Hloc; cbn [andb]; [done|].
        by rewrite bool_decide_eq_false_2.
      * cbn [Upload.Param.In Upload.Param.Schema]. by rewrite Hloc.
  - split; [done|]. split; [|split]; [|done|].
    + apply Forall_Forall2_diag, Forall_forall. intros param _. by split; [|left].
    + rewrite fixSwaggerOperationUploadFormat_Some.
      cbn [Upload.Operation.Consumes]. by rewrite bool_decide_eq_false_2.
Qed.

(** [fixSwaggerDocUploadFormats] keeps the paths of the document, never
    touches the DELETE, GET and HEAD operations, and applies the fix to
    the OPTIONS, PATCH, POST and PUT operations of every path. *)
Theorem fixSwaggerDocUploadFormats_methods
    (paths : gmap string Upload.PathItem.t) (name : string) :
  match fixSwaggerDocUploadFormats paths !! name, paths !! name with
  | Some path', Some path =>
      Upload.PathItem.Delete path' = Upload.PathItem.Delete path
      ∧ Upload.PathItem.Get path' = Upload.PathItem.Get path
      ∧ Upload.PathItem.Head path' = Upload.PathItem.Head path
      ∧ Upload.PathItem.Options path'
        = fixSwaggerOperationUploadFormat (Upload.PathItem.Options path)
      ∧ Upload.PathItem.Patch path'
        = fixSwaggerOperationUploadFormat (Upload.PathItem.Patch path)
      ∧ Upload.PathItem.Post path'
        = fixSwaggerOperationUploadFormat (Upload.PathItem.Post path)
      ∧ Upload.PathItem.Put path'
        = fixSwaggerOperationUploadFormat (Upload.PathItem.Put path)
  | None, None => True
  | _, _ => False
  end.
Proof.
  unfold fixSwaggerDocUploadFormats. rewrite lookup_fmap.
  by destruct (paths !! name).
Qed.
End UploadFix.

(** ** The data format *)

Section DataFormat.
Implicit Types (data blanks rest : bytes).

(** [checkDataFormat] skips leading spaces, tabs, carriage returns and
    line feeds. *)
Theorem checkDataFormat_skips_blanks blanks data :
  Forall (fun b => isBlank b = true) blanks →
  checkDataFormat (blanks ++ data) = checkDataFormat data.
Proof.
  induction 1 as [|b blanks Hb _ IH]; [done|].
  cbn [app checkDataFormat]. unfold isBlank in Hb. rewrite Hb, IH.
  destruct (Byte.eqb b Byte.x7b) eqn:H7b; [|done].
  apply Byte.byte_dec_bl in H7b. subst b. done.
Qed.

Lemma checkDataFormat_skips_blanks_witness :
  checkDataFormat ([Byte.x20; Byte.x0a; Byte.x09] ++ [Byte.x7b; Byte.x7d])
  = checkDataFormat [Byte.x7b; Byte.x7d].
Proof.
  apply (checkDataFormat_skips_blanks [Byte.x20; Byte.x0a; Byte.x09]).
  repeat constructor.
Defined.

(** [checkDataFormat] answers JSON exactly when the first byte that is not
    a space, tab, carriage return or line feed is an opening brace; empty
    and all-blank data are YAML. *)
Theorem checkDataFormat_JSON_iff data :
  checkDataFormat data = Format.JSON
  ↔ ∃ blanks rest,
      data = blanks ++ Byte.x7b :: rest
      ∧ Forall (fun b => isBlank b = true) blanks.
Proof.
  split.
  - induction data as [|b data IH]; [done|]. cbn [checkDataFormat].
    destruct (Byte.eqb b Byte.x7b) eqn:H7b.
    + intros _. apply Byte.byte_dec_bl in H7b. subst b.
      by exists [], data.
    + fold (isBlank b). destruct (isBlank b) eqn:Hb; [|done].
      intros Hjson. destruct (IH Hjson) as (blanks & rest & -> & Hblanks).
      exists (b :: blanks), rest. split; [done | by constructor].
  - intros (blanks & rest & -> & Hblanks).
    induction Hblanks as [|b blanks Hb _ IH]; [done|].
    cbn [app checkDataFormat]. fold (isBlank b). rewrite Hb, IH.
    by destruct (Byte.eqb b Byte.x7b).
Qed.
End DataFormat.

(** ** More on the orchestrator *)

Section OrchestratorMore.
Variable backend : Backend.
Implicit Types (data : bytes) (v out : SpecVersion) (fuel : nat).

(** When the loop of [convertDocument], started at version [v], ends with
    a converted document, it has taken as many steps as there are places
    between [v] and the requested version; when it ends with an error, it
    has taken at least one step and at most that many. Two iterations are
    enough for either. *)
Theorem convertLoop_steps_distance fuel data v out :
  2 ≤ fuel →
  ∃ steps r,
    convertLoop backend fuel data v out = Some (steps, r)
    ∧ match r with
      | Converted _ =>
          Z.of_nat (length steps)
          = Z.abs (SpecVersion_value out - SpecVersion_value v)
      | Failed _ =>
          (1 ≤ Z.of_nat (length steps)
           ≤ Z.abs (SpecVersion_value out - SpecVersion_value v))%Z
      end.
Proof.
  intros Hfuel. destruct fuel as [|[|fuel]]; [lia|lia|].
  destruct v, out; cbn -[Z.abs Z.sub];
    repeat match goal with
           | |- context [match ?c backend ?d with _ => _ end] =>
               destruct (c backend d); cbn -[Z.abs Z.sub]
           end;
    try destruct fuel; cbn -[Z.abs Z.sub];
    eexists _, _; (split; [reflexivity|]); simpl; lia.
Qed.

(** A conversion across two versions is the conversion to OpenAPI 3.0
    followed by the conversion from there: the steps are those of the
    first followed by those of the second, and a failure of the first is
    the result. *)
Theorem convertLoop_through_30 fuel data v out :
  2 ≤ fuel →
  Z.abs (SpecVersion_value out - SpecVersion_value v) = 2%Z →
  convertLoop backend fuel data v out
  = match convertLoop backend fuel data v OpenAPI30 with
    | Some (steps, Converted data30) =>
        match convertLoop backend fuel data30 OpenAPI30 out with
        | Some (steps', r) => Some (steps ++ steps', r)
        | None => None
        end
    | other => other
    end.
Proof.
  intros Hfuel Hdist. destruct fuel as [|[|fuel]]; [lia|lia|].
  destruct v, out; try (simpl in Hdist; lia); cbn -[Z.abs Z.sub];
    repeat match goal with
           | |- context [match ?c backend ?d with _ => _ end] =>
               destruct (c backend d); cbn -[Z.abs Z.sub]
           end;
    try destruct fuel; reflexivity.
Qed.
End OrchestratorMore.

Lemma convertLoop_steps_distance_witness :
  ∃ steps r,
    convertLoop markerBackend 2 [] OpenAPI30 OpenAPI31 = Some (steps, r)
    ∧ match r with
      | Converted _ =>
          Z.of_nat (length steps)
          = Z.abs (SpecVersion_value OpenAPI31 - SpecVersion_value OpenAPI30)
      | Failed _ =>
          (1 ≤ Z.of_nat (length steps)
           ≤ Z.abs (SpecVersion_value OpenAPI31 - SpecVersion_value OpenAPI30))%Z
      end.
Proof.
  apply (convertLoop_steps_distance markerBackend 2 [] OpenAPI30 OpenAPI31).
  lia.
Defined.

Lemma convertLoop_through_30_witness :
  convertLoop markerBackend 2 [Byte.x31] OpenAPI31 Swagger
  = Some ([(OpenAPI31, OpenAPI30); (OpenAPI30, Swagger)], Converted [Byte.x20]).
Proof.
  rewrite (convertLoop_through_30 markerBackend 2 [Byte.x31] OpenAPI31 Swagger);
    [reflexivity | lia | reflexivity].
Defined.
